(** * Relief-inventory ledger: a shallow embedding of [app.py]

    The Flask handlers of [src/app.py] are embedded as functions over an
    explicit store.  The SQLAlchemy session is modelled by three layers:
    the committed tables, the tables as seen inside the open transaction
    (after a flush) and the list of objects added but not yet flushed.
    Exceptions that the handlers do not catch ([TypeError], [ValueError],
    [BadRequestKeyError], [IntegrityError], [OperationalError]) are results
    of the monad.

    Scope of the model:
    - a text is a sequence of characters with code points below 256
      (Latin-1).  On them Python folds A-Z and the capital letters U+00C0
      to U+00DE into lower case and takes NEL and the no-break space for
      whitespace, whereas the store's [lower()] and [LIKE] fold A-Z only:
      the two foldings are kept apart;
    - the store is the default one ([sqlite:///db.sqlite3]): primary keys
      are [max + 1], [UNIQUE] on [Item.sku] is enforced, foreign keys and
      column lengths are not; a table is kept in the order of its rowids
      and a query without [ORDER BY] returns the rows in that order;
    - the handlers compute on unbounded integers, as Python does.  The
      store holds 64-bit integers: [get_stock_query_int64] embeds the
      aggregate of the stock query with its overflow, and the theorems
      about quantities and balances assume the integers of the request
      within the range ([form_fits]) and the stock query within it
      ([stock_fits]);
    - a handler is one request on its own session; requests that interleave
      are not modelled;
    - [created_at] (wall clock) and the [Location] table (only listed in
      the rendered forms) are left out. *)

From Stdlib Require Import ZArith Lia List Bool Ascii String Permutation.
From Stdlib Require Import Numbers.DecimalString.
From stdpp Require Import base option list gmap strings.

Local Open Scope Z_scope.
Local Open Scope string_scope.

(** ** Python string primitives *)

Module Py.

(** [str.isspace] on one character: TAB, LF, VT, FF, CR, FS, GS, RS, US,
    SPACE, NEL (U+0085) and the no-break space (U+00A0). *)
Definition isspace (c : ascii) : bool :=
  let n := N_of_ascii c in
  ((9 <=? n) && (n <=? 13) || (28 <=? n) && (n <=? 32) || (n =? 133) || (n =? 160))%N.

(** The characters [str.lower] changes: A-Z, and U+00C0 to U+00DE but for
    the multiplication sign U+00D7; each goes 32 places up. *)
Definition isupper (c : ascii) : bool :=
  let n := N_of_ascii c in
  ((65 <=? n) && (n <=? 90) || (192 <=? n) && (n <=? 222) && negb (n =? 215))%N.

Definition isdigit (c : ascii) : bool :=
  let n := N_of_ascii c in ((48 <=? n) && (n <=? 57))%N.

Definition lower_char (c : ascii) : ascii :=
  if isupper c then ascii_of_N (N_of_ascii c + 32) else c.

Fixpoint lstrip_chars (l : list ascii) : list ascii :=
  match l with
  | c :: l' => if isspace c then lstrip_chars l' else l
  | [] => []
  end.

Definition rstrip_chars (l : list ascii) : list ascii :=
  rev (lstrip_chars (rev l)).

Definition strip_chars (l : list ascii) : list ascii :=
  rstrip_chars (lstrip_chars l).

(** [split_chars l cur]: the words of [l], [cur] being the reversed
    prefix of the word being read. *)
Fixpoint split_chars (l cur : list ascii) : list (list ascii) :=
  match l with
  | [] => match cur with [] => [] | _ => [rev cur] end
  | c :: l' =>
      if isspace c
      then match cur with
           | [] => split_chars l' []
           | _ => rev cur :: split_chars l' []
           end
      else split_chars l' (c :: cur)
  end.

Fixpoint join_chars (sep : list ascii) (ws : list (list ascii)) : list ascii :=
  match ws with
  | [] => []
  | [w] => w
  | w :: ws' => w ++ sep ++ join_chars sep ws'
  end.

(** [s.strip()], [s.lower()], [s.split()], [sep.join(ws)]. *)
Definition strip (s : string) : string :=
  string_of_list_ascii (strip_chars (list_ascii_of_string s)).

Definition lower (s : string) : string :=
  string_of_list_ascii (map lower_char (list_ascii_of_string s)).

Definition split (s : string) : list string :=
  map string_of_list_ascii (split_chars (list_ascii_of_string s) []).

Definition join (sep : string) (ws : list string) : string :=
  string_of_list_ascii
    (join_chars (list_ascii_of_string sep) (map list_ascii_of_string ws)).

(** Truth value of a [str]: non-empty. *)
Definition truthy_str (s : string) : bool :=
  match s with EmptyString => false | _ => true end.

(** [s or None] and [s or d] on a [str]. *)
Definition or_none (s : string) : option string :=
  if truthy_str s then Some s else None.

Definition or_str (s d : string) : string :=
  if truthy_str s then s else d.

(** [int(s)] on a [str], base 10: surrounding whitespace is dropped, one
    sign is allowed, then digits, single underscores allowed between
    digits.  [None] stands for [ValueError]. *)
Fixpoint digits_acc (l : list ascii) (acc : Z) (after_digit : bool) : option Z :=
  match l with
  | [] => if after_digit then Some acc else None
  | c :: l' =>
      if isdigit c
      then digits_acc l' (10 * acc + (Z.of_N (N_of_ascii c) - 48)) true
      else if (N_of_ascii c =? 95)%N && after_digit
           then digits_acc l' acc false
           else None
  end.

Definition int_of_chars (l : list ascii) : option Z :=
  match strip_chars l with
  | c :: ds =>
      if (N_of_ascii c =? 45)%N then Z.opp <$> digits_acc ds 0 false
      else if (N_of_ascii c =? 43)%N then digits_acc ds 0 false
      else digits_acc (c :: ds) 0 false
  | [] => None
  end.

Definition int_of_str (s : string) : option Z :=
  int_of_chars (list_ascii_of_string s).

(** [str(n)] on an [int]. *)
Definition str_of_int (n : Z) : string :=
  NilZero.string_of_int (Z.to_int n).

End Py.

(** ** Data model (the [db.Model] classes) *)

Record Item := mkItem {
  i_id : Z;
  i_sku : option string;        (* unique, nullable *)
  i_name : string;
  i_category : option string;
  i_unit : string;
  i_min_qty : Z;
  i_notes : option string }.

Record Donor := mkDonor {
  d_id : Z;
  d_name : string;
  d_contact : option string }.

Record Beneficiary := mkBeneficiary {
  b_id : Z;
  b_name : string;
  b_contact : option string;
  b_parish : option string }.

Record Transaction := mkTransaction {
  t_id : Z;
  t_item_id : Z;
  t_ttype : string;             (* "IN" or "OUT" *)
  t_qty : Z;
  t_location_id : option Z;
  t_donor_id : option Z;
  t_beneficiary_id : option Z;
  t_notes : option string }.

(** The tables, each in insertion order. *)
Record DB := mkDB {
  items : list Item;
  donors : list Donor;
  beneficiaries : list Beneficiary;
  transactions : list Transaction }.

Definition empty_db : DB := mkDB [] [] [] [].

(** An object handed to [db.session.add]; its key is given at flush. *)
Inductive Obj :=
| OItem (it : Item)
| ODonor (d : Donor)
| OBeneficiary (b : Beneficiary)
| OTransaction (t : Transaction).

(** What [flash] records. *)
Inductive Flash :=
| FlashDuplicate (existing : Item)
| FlashItemCreated
| FlashIntake
| FlashInsufficient
| FlashDistribution
| FlashNoFile
| FlashImport (created skipped : Z).

Inductive Response :=
| Redirect (endpoint : string) (arg : option Z)
| Render (template : string).

Inductive Method := GET | POST.

Inductive exn :=
| TypeError | ValueError | BadRequestKeyError | IntegrityError | OperationalError.

Inductive result (A : Type) :=
| Val (a : A)
| Raise (e : exn).
Arguments Val {A} a.
Arguments Raise {A} e.

(** ** The session *)

Record Session := mkSession {
  committed : DB;               (* what a commit has made durable *)
  work : DB;                    (* the tables inside the open transaction *)
  pending : list Obj;           (* added, not flushed *)
  flashes : list Flash }.

(** A request starts on the committed tables with nothing pending. *)
Definition fresh_session (db : DB) : Session := mkSession db db [] [].

Definition M (A : Type) : Type := Session -> result A * Session.

Definition ret {A} (a : A) : M A := fun s => (Val a, s).

Definition bind {A B} (m : M A) (f : A -> M B) : M B :=
  fun s => match m s with
           | (Val a, s') => f a s'
           | (Raise e, s') => (Raise e, s')
           end.

Definition raise {A} (e : exn) : M A := fun s => (Raise e, s).

Definition lift {A} (r : result A) : M A := fun s => (r, s).

Declare Scope session_scope.
Delimit Scope session_scope with session.
Notation "x <- m ;; k" := (bind m (fun x => k))
  (at level 100, m at next level, right associativity) : session_scope.
Notation "m ;;; k" := (bind m (fun _ => k))
  (at level 100, right associativity) : session_scope.
Local Open Scope session_scope.

Definition flash (f : Flash) : M () :=
  fun s => (Val (), mkSession (committed s) (work s) (pending s) (flashes s ++ [f])).

(** [db.session.add(o)]. *)
Definition session_add (o : Obj) : M () :=
  fun s => (Val (), mkSession (committed s) (work s) (pending s ++ [o]) (flashes s)).

(** Next primary key of a table: one more than the largest key. *)
Definition next_id (ids : list Z) : Z := 1 + foldr Z.max 0 ids.

(** [UNIQUE] on [Item.sku]: a non-NULL sku may be carried by one row. *)
Definition sku_taken (sku : option string) (its : list Item) : bool :=
  match sku with
  | None => false
  | Some _ => existsb (fun it => bool_decide (i_sku it = sku)) its
  end.

(** The INSERT of one object: the key it received, or [IntegrityError]. *)
Definition insert_obj (o : Obj) (db : DB) : result (Z * DB) :=
  match o with
  | OItem it =>
      if sku_taken (i_sku it) (items db) then Raise IntegrityError
      else
        let k := next_id (map i_id (items db)) in
        Val (k, mkDB (items db ++ [mkItem k (i_sku it) (i_name it) (i_category it)
                                     (i_unit it) (i_min_qty it) (i_notes it)])
                     (donors db) (beneficiaries db) (transactions db))
  | ODonor d =>
      let k := next_id (map d_id (donors db)) in
      Val (k, mkDB (items db) (donors db ++ [mkDonor k (d_name d) (d_contact d)])
                   (beneficiaries db) (transactions db))
  | OBeneficiary b =>
      let k := next_id (map b_id (beneficiaries db)) in
      Val (k, mkDB (items db) (donors db)
                   (beneficiaries db ++ [mkBeneficiary k (b_name b) (b_contact b) (b_parish b)])
                   (transactions db))
  | OTransaction t =>
      let k := next_id (map t_id (transactions db)) in
      Val (k, mkDB (items db) (donors db) (beneficiaries db)
                   (transactions db ++ [mkTransaction k (t_item_id t) (t_ttype t) (t_qty t)
                                          (t_location_id t) (t_donor_id t)
                                          (t_beneficiary_id t) (t_notes t)]))
  end.

Fixpoint insert_all (os : list Obj) (db : DB) : result (list Z * DB) :=
  match os with
  | [] => Val ([], db)
  | o :: os' =>
      match insert_obj o db with
      | Raise e => Raise e
      | Val (k, db') =>
          match insert_all os' db' with
          | Raise e => Raise e
          | Val (ks, db'') => Val (k :: ks, db'')
          end
      end
  end.

(** [db.session.flush()]: the pending objects are inserted in the order
    they were added; the keys they received are returned.  A failed INSERT
    rolls the transaction back and the exception leaves the handler. *)
Definition flush : M (list Z) :=
  fun s => match insert_all (pending s) (work s) with
           | Val (ks, db') => (Val ks, mkSession (committed s) db' [] (flashes s))
           | Raise e => (Raise e, mkSession (committed s) (committed s) [] (flashes s))
           end.

(** [db.session.commit()]. *)
Definition commit : M () :=
  _ <- flush ;;
  fun s => (Val (), mkSession (work s) (work s) (pending s) (flashes s)).

(** A query flushes first (autoflush), then reads the open transaction. *)
Definition query {A} (f : DB -> A) : M A :=
  _ <- flush ;; fun s => (Val (f (work s)), s).

(** The end of a request: Flask-SQLAlchemy removes the session when the
    application context is torn down, which rolls back what was not
    committed.  The next request starts on the committed tables. *)
Definition end_request (s : Session) : Session :=
  mkSession (committed s) (committed s) [] (flashes s).

(** ** Utility functions of [app.py] *)

(** [normalize_name]: [" ".join((s or '').strip().lower().split())];
    on a [str], [s or ''] is [s]. *)
Definition normalize_name (s : string) : string :=
  Py.join " " (Py.split (Py.lower (Py.strip s))).

(** SQLite's [lower()]: the letters A-Z are folded and every other
    character is left as it is; nothing is trimmed or collapsed. *)
Definition sql_lower_char (c : ascii) : ascii :=
  let n := N_of_ascii c in
  if ((65 <=? n) && (n <=? 90))%N then ascii_of_N (n + 32) else c.

Definition sql_lower (s : string) : string :=
  string_of_list_ascii (map sql_lower_char (list_ascii_of_string s)).

(** The rows [item LEFT OUTER JOIN transaction ON item.id = item_id]
    yields for one item: its entries, or one all-NULL row when it has none. *)
Definition outer_join (it : Item) (txs : list Transaction) : list (option Transaction) :=
  match filter (fun t => t_item_id t = i_id it) txs with
  | [] => [None]
  | rows => Some <$> rows
  end.

(** [CASE WHEN ttype = 'IN' THEN qty ELSE -qty END]; on the all-NULL row the
    test is not true and [-NULL] is NULL. *)
Definition stock_case (r : option Transaction) : option Z :=
  match r with
  | None => None
  | Some t => Some (if bool_decide (t_ttype t = "IN") then t_qty t else - t_qty t)
  end.

(** SQL [SUM]: NULLs are skipped; the sum of no value is NULL. *)
Definition sql_sum (vs : list (option Z)) : option Z :=
  match omap id vs with
  | [] => None
  | xs => Some (foldr Z.add 0 xs)
  end.

(** [get_stock_query]: one row [(Item, stock)] per item ([GROUP BY item.id],
    the primary key). *)
Definition get_stock_query (db : DB) : list (Item * option Z) :=
  map (fun it => (it, sql_sum (stock_case <$> outer_join it (transactions db))))
      (items db).

(** [x or 0] on a nullable integer. *)
Definition or_zero (x : option Z) : Z :=
  match x with
  | Some v => if bool_decide (v = 0) then 0 else v
  | None => 0
  end.

(** ** The stock query on the store's 64-bit integers *)

(** An INTEGER of SQLite is a signed number of 64 bits.  The handlers
    compute on unbounded integers, as Python does; nothing outside the
    range can be stored (the driver refuses such a parameter with
    [OverflowError] and the statement does not run), and the aggregate of
    the stock query is computed by the store, within the range: that
    aggregate is embedded here.  Theorems about quantities and sums carry
    the range as a hypothesis. *)
Definition int64 (z : Z) : Prop := - 2 ^ 63 <= z < 2 ^ 63.

Definition int64b (z : Z) : bool := ((- 2 ^ 63 <=? z) && (z <? 2 ^ 63))%Z.

(** A number as SQLite computes it: an INTEGER, or a REAL, whose value is
    not modelled. *)
Inductive SqlNum :=
| SqlInt (z : Z)
| SqlReal.

(** [-x] on an INTEGER: the negation of the least integer is a REAL. *)
Definition sql_neg (z : Z) : SqlNum :=
  if int64b (- z) then SqlInt (- z) else SqlReal.

(** The CASE expression of the stock query, as the store evaluates it. *)
Definition stock_case_int64 (r : option Transaction) : option SqlNum :=
  match r with
  | None => None
  | Some t => Some (if bool_decide (t_ttype t = "IN") then SqlInt (t_qty t)
                    else sql_neg (t_qty t))
  end.

(** The accumulator of [SUM]: no value seen, an exact integer sum, a sum
    that has gone over to floating point because a REAL came in, or an
    integer sum that left the range. *)
Inductive SumState :=
| SumEmpty
| SumInt (acc : Z)
| SumApprox
| SumOverflow.

(** One row of the group: NULL is skipped; an INTEGER is added exactly
    while the sum is exact, and the first sum outside the range is
    remembered as an overflow. *)
Definition sum_step (st : SumState) (v : option SqlNum) : SumState :=
  match v with
  | None => st
  | Some x =>
      match st with
      | SumApprox => SumApprox
      | SumOverflow => SumOverflow
      | SumEmpty =>
          match x with
          | SqlReal => SumApprox
          | SqlInt z => if int64b z then SumInt z else SumOverflow
          end
      | SumInt acc =>
          match x with
          | SqlReal => SumApprox
          | SqlInt z => if int64b (acc + z) then SumInt (acc + z) else SumOverflow
          end
      end
  end.

(** The end of the group: NULL when no value was seen, the error
    "integer overflow" when an integer sum left the range. *)
Definition sum_final (st : SumState) : result (option SqlNum) :=
  match st with
  | SumEmpty => Val None
  | SumInt acc => Val (Some (SqlInt acc))
  | SumApprox => Val (Some SqlReal)
  | SumOverflow => Raise OperationalError
  end.

(** SQLite's [SUM] over the rows of one group, in the order of the table. *)
Definition sqlite_sum (vs : list (option SqlNum)) : result (option SqlNum) :=
  sum_final (fold_left sum_step vs SumEmpty).

(** The results of a list, or the first exception. *)
Fixpoint result_all {A} (rs : list (result A)) : result (list A) :=
  match rs with
  | [] => Val []
  | Raise e :: _ => Raise e
  | Val a :: rs' =>
      match result_all rs' with
      | Val l => Val (a :: l)
      | Raise e => Raise e
      end
  end.

(** [get_stock_query().all()] as the store runs it: one row per item, or
    the error of the first group whose sum overflows. *)
Definition get_stock_query_int64 (db : DB) : result (list (Item * option SqlNum)) :=
  result_all
    (map (fun it =>
            match sqlite_sum (stock_case_int64 <$> outer_join it (transactions db)) with
            | Val stock => Val (it, stock)
            | Raise e => Raise e
            end) (items db)).

(** The stock query runs within the store's integers: it raises no
    overflow and yields no REAL, and its rows are those of
    [get_stock_query]. *)
Definition stock_fits (db : DB) : Prop :=
  get_stock_query_int64 db
  = Val (map (fun row => (row.1, SqlInt <$> row.2)) (get_stock_query db)).


(** ** [dashboard] *)

(** The test of line 86, [item.min_qty and stock < item.min_qty]. *)
Definition low_stock_flag (it : Item) (stock : Z) : bool :=
  bool_decide (i_min_qty it <> 0) && bool_decide (stock < i_min_qty it).

(** [low.sort(key=lambda x: x[1])]: a stable sort on the stock. *)
Fixpoint insert_by_stock (x : Item * Z) (l : list (Item * Z)) : list (Item * Z) :=
  match l with
  | [] => [x]
  | y :: l' => if bool_decide (x.2 <= y.2) then x :: l else y :: insert_by_stock x l'
  end.

Definition sort_by_stock (l : list (Item * Z)) : list (Item * Z) :=
  foldr insert_by_stock [] l.

Record DashboardView := mkDashboard {
  total_items : Z;
  total_in_stock : Z;
  low_stock : list (Item * Z) }.

(** The loop of lines 83-87. *)
Fixpoint low_rows (rows : list (Item * option Z)) : list (Item * Z) :=
  match rows with
  | [] => []
  | (item, stock) :: rows' =>
      let stock := or_zero stock in
      if low_stock_flag item stock then (item, stock) :: low_rows rows'
      else low_rows rows'
  end.

Definition dashboard : M DashboardView :=
  total_items <- query (fun db => Z.of_nat (length (items db))) ;;
  stock_rows <- query get_stock_query ;;
  let total_in_stock := foldr Z.add 0 (map (fun row => or_zero row.2) stock_rows) in
  let low := sort_by_stock (low_rows stock_rows) in
  ret (mkDashboard total_items total_in_stock low).

(** ** Reading the request *)

(** [request.form[k]] (a missing key is a [BadRequestKeyError]) and
    [request.form.get(k, d)]. *)
Definition form_item (form : gmap string string) (k : string) : result string :=
  match form !! k with
  | Some v => Val v
  | None => Raise BadRequestKeyError
  end.

Definition form_get (form : gmap string string) (k d : string) : string :=
  default d (form !! k).

(** [int(s)]. *)
Definition py_int (s : string) : result Z :=
  match Py.int_of_str s with
  | Some n => Val n
  | None => Raise ValueError
  end.

Definition result_bind {A B} (r : result A) (f : A -> result B) : result B :=
  match r with
  | Val a => f a
  | Raise e => Raise e
  end.

(** [int(request.form["location_id"]) if request.form.get("location_id") else None] *)
Definition form_location_id (form : gmap string string) : result (option Z) :=
  match form !! "location_id" with
  | Some v => if Py.truthy_str v then result_bind (py_int v) (fun n => Val (Some n))
              else Val None
  | None => Val None
  end.

(** [int(request.form.get("min_qty", "0") or 0)] *)
Definition form_min_qty (form : gmap string string) : result Z :=
  let v := form_get form "min_qty" "0" in
  if Py.truthy_str v then py_int v else Val 0.

(** ** The duplicate guard's query *)

(** [Item.query.filter(func.lower(Item.name) == norm,
      Item.category == category, Item.unit == unit).first()];
    [== None] is rendered [IS NULL]. *)
Definition guard_match (norm : string) (category : option string) (unit : string)
    (it : Item) : bool :=
  bool_decide (sql_lower (i_name it) = norm)
  && bool_decide (i_category it = category)
  && bool_decide (i_unit it = unit).

(** [.first()]: the first match in the order of the table. *)
Definition find_duplicate (norm : string) (category : option string) (unit : string)
    (db : DB) : option Item :=
  List.find (guard_match norm category unit) (items db).

(** ** [item_new] *)

Definition item_new (method : Method) (form : gmap string string) : M Response :=
  match method with
  | POST =>
      name <- lift (form_item form "name") ;;
      let name := Py.strip name in
      let category := Py.or_none (Py.strip (form_get form "category" EmptyString)) in
      let unit := Py.or_str (Py.strip (form_get form "unit" "unit")) "unit" in
      let sku := Py.or_none (Py.strip (form_get form "sku" EmptyString)) in
      min_qty <- lift (form_min_qty form) ;;
      let notes := Py.or_none (Py.strip (form_get form "notes" EmptyString)) in
      let norm := normalize_name name in
      existing <- query (find_duplicate norm category unit) ;;
      match existing with
      | Some existing =>
          flash (FlashDuplicate existing) ;;;
          ret (Redirect "item_edit" (Some (i_id existing)))
      | None =>
          session_add (OItem (mkItem 0 sku name category unit min_qty notes)) ;;;
          commit ;;;
          flash FlashItemCreated ;;;
          ret (Redirect "items" None)
      end
  | GET => ret (Render "item_form.html")
  end.

(** ** [intake] *)

(** Lines 159-165: the donor of that name, created and flushed when there
    is none; the value is [donor.id if donor else None]. *)
Definition intake_donor (donor_name : option string) : M (option Z) :=
  match donor_name with
  | Some donor_name =>
      donor <- query (fun db =>
                 List.find (fun d => bool_decide (d_name d = donor_name)) (donors db)) ;;
      match donor with
      | Some donor => ret (Some (d_id donor))
      | None =>
          session_add (ODonor (mkDonor 0 donor_name None)) ;;;
          ks <- flush ;;
          ret (last ks)
      end
  | None => ret None
  end.

Definition intake (method : Method) (form : gmap string string) : M Response :=
  (* the item and location lists of the rendered form *)
  _ <- query items ;;
  match method with
  | POST =>
      item_id <- lift (result_bind (form_item form "item_id") py_int) ;;
      qty <- lift (result_bind (form_item form "qty") py_int) ;;
      location_id <- lift (form_location_id form) ;;
      let donor_name := Py.or_none (Py.strip (form_get form "donor_name" EmptyString)) in
      donor_id <- intake_donor donor_name ;;
      let notes := Py.or_none (Py.strip (form_get form "notes" EmptyString)) in
      session_add (OTransaction (mkTransaction 0 item_id "IN" qty location_id
                                   donor_id None notes)) ;;;
      commit ;;;
      flash FlashIntake ;;;
      ret (Redirect "dashboard" None)
  | GET => ret (Render "intake.html")
  end.

(** ** [distribute] *)

(** [{i.id: s for i, s in rows}]: a later row overwrites an earlier one. *)
Definition stock_map (rows : list (Item * option Z)) : gmap Z (option Z) :=
  foldl (fun m row => <[i_id row.1 := row.2]> m) ∅ rows.

(** [stock_map.get(item_id, 0)]: the stored value, which is NULL ([None])
    for an item without entries, or 0 when the key is missing. *)
Definition stock_map_get (m : gmap Z (option Z)) (item_id : Z) : option Z :=
  default (Some 0) (m !! item_id).

(** Lines 186-192: the beneficiary of that name, created and flushed when
    there is none; the value is [beneficiary.id if beneficiary else None]. *)
Definition distribute_beneficiary (beneficiary_name parish : option string)
  : M (option Z) :=
  match beneficiary_name with
  | Some beneficiary_name =>
      beneficiary <- query (fun db =>
          List.find (fun b => bool_decide (b_name b = beneficiary_name))
                    (beneficiaries db)) ;;
      match beneficiary with
      | Some beneficiary => ret (Some (b_id beneficiary))
      | None =>
          session_add (OBeneficiary (mkBeneficiary 0 beneficiary_name None parish)) ;;;
          ks <- flush ;;
          ret (last ks)
      end
  | None => ret None
  end.

Definition distribute (method : Method) (form : gmap string string) : M Response :=
  _ <- query items ;;
  match method with
  | POST =>
      item_id <- lift (result_bind (form_item form "item_id") py_int) ;;
      qty <- lift (result_bind (form_item form "qty") py_int) ;;
      location_id <- lift (form_location_id form) ;;
      let beneficiary_name :=
        Py.or_none (Py.strip (form_get form "beneficiary_name" EmptyString)) in
      let parish := Py.or_none (Py.strip (form_get form "parish" EmptyString)) in
      beneficiary_id <- distribute_beneficiary beneficiary_name parish ;;
      let notes := Py.or_none (Py.strip (form_get form "notes" EmptyString)) in
      (* Check stock *)
      rows <- query get_stock_query ;;
      match stock_map_get (stock_map rows) item_id with
      | None => raise TypeError           (* None < qty *)
      | Some stock =>
          if bool_decide (stock < qty) then
            flash FlashInsufficient ;;;
            ret (Redirect "distribute" None)
          else
            session_add (OTransaction (mkTransaction 0 item_id "OUT" qty location_id
                                         None beneficiary_id notes)) ;;;
            commit ;;;
            flash FlashDistribution ;;;
            ret (Redirect "dashboard" None)
      end
  | GET => ret (Render "distribute.html")
  end.

(** ** [import_items] *)

(** A cell of the frame [pd.read_csv] returns: text, an integer, or NaN
    (an empty field).  Other floats are not modelled. *)
Inductive Cell :=
| CStr (s : string)
| CInt (n : Z)
| CNaN.

(** [row.get(col, d)] *)
Definition row_get (row : gmap string Cell) (col : string) (d : Cell) : Cell :=
  default d (row !! col).

(** [str(c)] *)
Definition cell_str (c : Cell) : string :=
  match c with
  | CStr s => s
  | CInt n => Py.str_of_int n
  | CNaN => "nan"
  end.

(** Truth value of a cell: NaN is a non-zero float. *)
Definition cell_truthy (c : Cell) : bool :=
  match c with
  | CStr s => Py.truthy_str s
  | CInt n => negb (bool_decide (n = 0))
  | CNaN => true
  end.

(** [int(c)]; [int(float('nan'))] is a [ValueError]. *)
Definition cell_int (c : Cell) : result Z :=
  match c with
  | CStr s => py_int s
  | CInt n => Val n
  | CNaN => Raise ValueError
  end.

(** [int(row.get("min_qty", 0) or 0)] *)
Definition row_min_qty (row : gmap string Cell) : result Z :=
  let c := row_get row "min_qty" (CInt 0) in
  cell_int (if cell_truthy c then c else CInt 0).

(** [str(row.get("name", '')).strip()] *)
Definition row_name (row : gmap string Cell) : string :=
  Py.strip (cell_str (row_get row "name" (CStr EmptyString))).

Definition row_category (row : gmap string Cell) : option string :=
  Py.or_none (Py.strip (cell_str (row_get row "category" (CStr EmptyString)))).

Definition row_unit (row : gmap string Cell) : string :=
  Py.or_str (Py.strip (cell_str (row_get row "unit" (CStr "unit")))) "unit".

Definition row_sku (row : gmap string Cell) : option string :=
  Py.or_none (Py.strip (cell_str (row_get row "sku" (CStr EmptyString)))).

Definition row_notes (row : gmap string Cell) : option string :=
  Py.or_none (Py.strip (cell_str (row_get row "notes" (CStr EmptyString)))).

(** The body of the loop of lines 243-260 on the counters
    [(created, skipped)]. *)
Definition import_row (row : gmap string Cell) (counts : Z * Z) : M (Z * Z) :=
  let name := row_name row in
  if negb (Py.truthy_str name) then ret counts
  else
    let category := row_category row in
    let unit := row_unit row in
    let sku := row_sku row in
    min_qty <- lift (row_min_qty row) ;;
    let notes := row_notes row in
    let norm := normalize_name name in
    existing <- query (find_duplicate norm category unit) ;;
    match existing with
    | Some _ => ret (counts.1, counts.2 + 1)
    | None =>
        session_add (OItem (mkItem 0 sku name category unit min_qty notes)) ;;;
        ret (counts.1 + 1, counts.2)
    end.

Fixpoint import_rows (rows : list (gmap string Cell)) (counts : Z * Z) : M (Z * Z) :=
  match rows with
  | [] => ret counts
  | row :: rows' => counts' <- import_row row counts ;; import_rows rows' counts'
  end.

(** [file] is the parsed upload, [None] when no file came with the
    request. *)
Definition import_items (method : Method) (file : option (list (gmap string Cell)))
  : M Response :=
  match method with
  | POST =>
      match file with
      | None => flash FlashNoFile ;;; ret (Redirect "import_items" None)
      | Some df =>
          counts <- import_rows df (0, 0) ;;
          commit ;;;
          flash (FlashImport counts.1 counts.2) ;;;
          ret (Redirect "items" None)
      end
  | GET => ret (Render "import_items.html")
  end.

(** * Specification-side definitions *)

(** ** Sample data *)

Definition form_of (kvs : list (string * string)) : gmap string string :=
  list_to_map kvs.

Definition row_of (kvs : list (string * Cell)) : gmap string Cell :=
  list_to_map kvs.

Definition rice : Item := mkItem 1 None "Rice" (Some "Food") "kg" 10 None.
Definition db_rice : DB := mkDB [rice] [] [] [].

(** Forms for [distribute] and [intake] on item 1. *)
Definition ask_five : gmap string string :=
  form_of [("item_id", "1"); ("qty", "5")].
Definition give_zero : gmap string string :=
  form_of [("item_id", "1"); ("qty", "0"); ("donor_name", "Red Cross")].

(** ** The balance projector *)





(** The value the CASE expression gives one entry. *)
Definition signed_qty (t : Transaction) : Z :=
  if bool_decide (t_ttype t = "IN") then t_qty t else - t_qty t.

Definition item_entries (item_id : Z) (txs : list Transaction) : list Transaction :=
  filter (fun t => t_item_id t = item_id) txs.





Definition ledger_ex : DB :=
  mkDB [rice; mkItem 2 None "Soap" None "pcs" 0 None] [] []
       [mkTransaction 1 1 "IN" 20 None None None None;
        mkTransaction 2 1 "OUT" 5 None None None None;
        mkTransaction 3 1 "IN" 7 None None None None].

Definition dashboard_low (db : DB) : list (Item * Z) :=
  match (dashboard (fresh_session db)).1 with
  | Val v => low_stock v
  | Raise _ => []
  end.

(** An item with a threshold below zero and a stock further below: the
    store left by creating the item with [min_qty = -1] and recording an
    intake of [-2]. *)
Definition owed : Item := mkItem 1 None "Tarpaulin" None "pcs" (-1) None.
Definition db_owed : DB :=
  mkDB [owed] [] [] [mkTransaction 1 1 "IN" (-2) None None None None].
Definition owed_form : gmap string string :=
  form_of [("name", "Tarpaulin"); ("unit", "pcs"); ("min_qty", "-1")].
Definition owed_intake : gmap string string :=
  form_of [("item_id", "1"); ("qty", "-2")].

(** ** The stock check of [distribute] *)

(** The aggregate of the group of the item with key [item_id]. *)
Definition stock_of_id (item_id : Z) (txs : list Transaction) : option Z :=
  match item_entries item_id txs with
  | [] => None
  | rows => Some (foldr Z.add 0 (signed_qty <$> rows))
  end.

(** What the handler reads from the form before it touches the store. *)
Definition form_reads (form : gmap string string) (item_id qty : Z)
    (location_id : option Z) : Prop :=
  result_bind (form_item form "item_id") py_int = Val item_id
  /\ result_bind (form_item form "qty") py_int = Val qty
  /\ form_location_id form = Val location_id.

(** The integers of the form are within the range of the store, so that
    the driver binds them. *)
Definition form_fits (item_id qty : Z) (location_id : option Z) : Prop :=
  int64 item_id /\ int64 qty /\ from_option int64 True location_id.

Definition form_beneficiary_name (form : gmap string string) : option string :=
  Py.or_none (Py.strip (form_get form "beneficiary_name" EmptyString)).

Definition form_parish (form : gmap string string) : option string :=
  Py.or_none (Py.strip (form_get form "parish" EmptyString)).

Definition form_notes (form : gmap string string) : option string :=
  Py.or_none (Py.strip (form_get form "notes" EmptyString)).

(** The session the find-or-create step of [distribute] leaves. *)
Definition beneficiary_known (name : option string) (db : DB) : option Beneficiary :=
  match name with
  | Some n => List.find (fun b => bool_decide (b_name b = n)) (beneficiaries db)
  | None => None
  end.

Definition with_beneficiary (db : DB) (b : Beneficiary) : DB :=
  mkDB (items db) (donors db) (beneficiaries db ++ [b]) (transactions db).

Definition new_beneficiary (db : DB) (name : string) (parish : option string)
  : Beneficiary :=
  mkBeneficiary (next_id (b_id <$> beneficiaries db)) name None parish.

Definition after_beneficiary (db : DB) (name parish : option string)
  : option Z * Session :=
  match name with
  | None => (None, fresh_session db)
  | Some n =>
      match beneficiary_known name db with
      | Some b => (Some (b_id b), fresh_session db)
      | None =>
          let b := new_beneficiary db n parish in
          (Some (b_id b), mkSession db (with_beneficiary db b) [] [])
      end
  end.

Definition db_stocked : DB :=
  mkDB [rice] [] [] [mkTransaction 1 1 "IN" 5 None None None None].

(** ** [intake] *)





Definition with_transaction (db : DB) (t : Transaction) : DB :=
  mkDB (items db) (donors db) (beneficiaries db) (transactions db ++ [t]).


(** ** Name normalisation *)

Definition normalize_chars (l : list ascii) : list ascii :=
  Py.join_chars [" "%char]
    (Py.split_chars (map Py.lower_char (Py.strip_chars l)) []).

(** A word: not empty, no whitespace in it. *)
Definition is_word (w : list ascii) : Prop :=
  w <> [] /\ Forall (fun c => Py.isspace c = false) w.

(** ** [item_new] and the duplicate guard *)

Definition item_form_reads (form : gmap string string) (raw : string) (m : Z) : Prop :=
  form_item form "name" = Val raw /\ form_min_qty form = Val m.

Definition form_category (form : gmap string string) : option string :=
  Py.or_none (Py.strip (form_get form "category" EmptyString)).

Definition form_unit (form : gmap string string) : string :=
  Py.or_str (Py.strip (form_get form "unit" "unit")) "unit".

Definition form_sku (form : gmap string string) : option string :=
  Py.or_none (Py.strip (form_get form "sku" EmptyString)).

Definition with_item (db : DB) (it : Item) : DB :=
  mkDB (items db ++ [it]) (donors db) (beneficiaries db) (transactions db).

(** The item the form proposes, with the key the INSERT gives it. *)
Definition proposed_item (db : DB) (form : gmap string string) (raw : string) (m : Z)
  : Item :=
  mkItem (next_id (map i_id (items db))) (form_sku form) (Py.strip raw)
         (form_category form) (form_unit form) m (form_notes form).

Definition rice_form (name unit : string) : gmap string string :=
  form_of [("name", name); ("category", "Food"); ("unit", unit)].

(** The catalogue after one submission of [("Rice  Bag", "Food", "kg")]
    (two spaces inside the name). *)
Definition db_rice_bag : DB :=
  committed (item_new POST (rice_form "Rice  Bag" "kg") (fresh_session empty_db)).2.

(** A name that starts with a capital E acute (U+00C9), and its lower case
    (U+00E9). *)
Definition ecole_kit : string := String (ascii_of_N 201) "cole kit".
Definition ecole_kit_lower : string := String (ascii_of_N 233) "cole kit".

(** ** Bulk import *)

(** The spec's reading of one row, on the catalogue as it stands when the
    row is reached: skipped for a blank name, skipped and counted as a
    duplicate, or created. *)
Inductive RowOutcome := SkippedBlank | SkippedDuplicate | Created.

#[global] Instance RowOutcome_eq_dec : EqDecision RowOutcome.
Proof. solve_decision. Defined.

Definition row_outcome (db : DB) (row : gmap string Cell) : RowOutcome :=
  if negb (Py.truthy_str (row_name row)) then SkippedBlank
  else match find_duplicate (normalize_name (row_name row)) (row_category row)
               (row_unit row) db with
       | Some _ => SkippedDuplicate
       | None => Created
       end.

Definition min_qty_value (row : gmap string Cell) : Z :=
  match row_min_qty row with
  | Val m => m
  | Raise _ => 0
  end.

Definition row_item (db : DB) (row : gmap string Cell) : Item :=
  mkItem (next_id (map i_id (items db))) (row_sku row) (row_name row)
         (row_category row) (row_unit row) (min_qty_value row) (row_notes row).

Definition import_step (db : DB) (row : gmap string Cell) : DB :=
  match row_outcome db row with
  | Created => with_item db (row_item db row)
  | _ => db
  end.

Fixpoint import_spec (db : DB) (rows : list (gmap string Cell))
  : DB * list RowOutcome :=
  match rows with
  | [] => (db, [])
  | row :: rows' =>
      let res := import_spec (import_step db row) rows' in
      (res.1, row_outcome db row :: res.2)
  end.

Definition count_outcome (o : RowOutcome) (os : list RowOutcome) : Z :=
  Z.of_nat (length (filter (fun o' => o' = o) os)).

(** The rows the loop gets through: a row that is not blank needs a
    [min_qty] that [int] accepts, and a row that is created needs an sku
    that is absent or carried by no item. *)
Definition converts (r : result Z) : bool :=
  match r with Val _ => true | Raise _ => false end.

Definition row_admissible (db : DB) (row : gmap string Cell) : bool :=
  match row_outcome db row with
  | SkippedBlank => true
  | SkippedDuplicate => converts (row_min_qty row)
  | Created => converts (row_min_qty row) && negb (sku_taken (row_sku row) (items db))
  end.

Fixpoint import_admissible (db : DB) (rows : list (gmap string Cell)) : bool :=
  match rows with
  | [] => true
  | row :: rows' => row_admissible db row && import_admissible (import_step db row) rows'
  end.

(** The tables a flush of the session would give. *)
Definition flushed_view (s : Session) : option DB :=
  match insert_all (pending s) (work s) with
  | Val (_, db) => Some db
  | Raise _ => None
  end.

(** Rows of a frame with the columns [name], [category], [unit]. *)
Definition beans_row : gmap string Cell :=
  row_of [("name", CStr "Beans"); ("category", CStr "Food"); ("unit", CStr "kg")].
Definition rice_again_row : gmap string Cell :=
  row_of [("name", CStr " rice "); ("category", CStr "Food"); ("unit", CStr "kg")].
Definition spaces_row : gmap string Cell :=
  row_of [("name", CStr "   "); ("category", CStr "Food"); ("unit", CStr "kg")].
Definition empty_name_row : gmap string Cell :=
  row_of [("name", CNaN); ("category", CStr "Food"); ("unit", CStr "kg")].

(** Rows of a frame with a [min_qty] column as well; one cell of the column
    is not a number, so [read_csv] keeps the whole column as text. *)
Definition beans_five_row : gmap string Cell :=
  row_of [("name", CStr "Beans"); ("category", CStr "Food"); ("unit", CStr "kg");
          ("min_qty", CStr "5")].
Definition abc_row : gmap string Cell :=
  row_of [("name", CStr "Soap"); ("category", CStr "Hygiene"); ("unit", CStr "pcs");
          ("min_qty", CStr "abc")].

(** The tables a request leaves committed. *)
Definition after (out : result Response * Session) : DB := committed out.2.

Definition item_a : Item := mkItem 1 None "A" None "unit" 10 None.

Definition scenario_db (n : nat) : DB :=
  let db0 := mkDB [item_a] [] [] [] in
  let db1 := after (intake POST (form_of [("item_id", "1"); ("qty", "20")])
                      (fresh_session db0)) in
  let db2 := after (distribute POST (form_of [("item_id", "1"); ("qty", "5")])
                      (fresh_session db1)) in
  let db3 := after (distribute POST (form_of [("item_id", "1"); ("qty", "10")])
                      (fresh_session db2)) in
  match n with
  | O => db0
  | 1%nat => db1
  | 2%nat => db2
  | _ => db3
  end.

(** * Further handlers and invariants *)

From Stdlib Require Import Sorted.

(** ** Invariants of the tables *)

(** The constraints of the schema: the primary keys of each table are
    pairwise distinct, and so are the skus that are not NULL. *)
Definition keys_unique (db : DB) : Prop :=
  NoDup (map i_id (items db))
  /\ NoDup (map d_id (donors db))
  /\ NoDup (map b_id (beneficiaries db))
  /\ NoDup (map t_id (transactions db))
  /\ NoDup (omap i_sku (items db)).

(** What a request on the catalogue ([item_new], [import_items]) may do to
    the tables [db0]: append items, nothing else. *)
Definition catalogue_frame (db0 db : DB) : Prop :=
  items db0 `prefix_of` items db
  /\ donors db = donors db0
  /\ beneficiaries db = beneficiaries db0
  /\ transactions db = transactions db0.

(** What [intake] may do: append donors and ledger entries. *)
Definition intake_frame (db0 db : DB) : Prop :=
  items db = items db0
  /\ donors db0 `prefix_of` donors db
  /\ beneficiaries db = beneficiaries db0
  /\ transactions db0 `prefix_of` transactions db.

(** What [distribute] may do: append beneficiaries and ledger entries. *)
Definition distribute_frame (db0 db : DB) : Prop :=
  items db = items db0
  /\ donors db = donors db0
  /\ beneficiaries db0 `prefix_of` beneficiaries db
  /\ transactions db0 `prefix_of` transactions db.

Definition is_item (o : Obj) : Prop :=
  match o with OItem _ => True | _ => False end.

Definition is_donor_or_entry (o : Obj) : Prop :=
  match o with ODonor _ | OTransaction _ => True | _ => False end.

Definition is_beneficiary_or_entry (o : Obj) : Prop :=
  match o with OBeneficiary _ | OTransaction _ => True | _ => False end.

(** A property [P] of the tables holds of the committed ones and of the
    ones inside the open transaction, and only objects of the kinds
    [allowed] wait for a flush. *)
Definition holds (P : DB -> Prop) (allowed : Obj -> Prop) (s : Session) : Prop :=
  P (committed s) /\ P (work s) /\ Forall allowed (pending s).

(** A computation that keeps a property of the session, whether it returns
    or raises. *)
Definition preserves (I : Session -> Prop) {A} (m : M A) : Prop :=
  forall s, I s -> I (m s).2.

(** ** Balances after a ledger request *)



Definition distribute_entry (db : DB) (form : gmap string string) (i q : Z)
    (loc : option Z) : Transaction :=
  mkTransaction (next_id (map t_id (transactions db))) i "OUT" q loc None
    (after_beneficiary db (form_beneficiary_name form) (form_parish form)).1
    (form_notes form).

(** ** [item_edit] *)

(** What the handler answers: [abort(404)] of [get_or_404], the form
    rendered on the item for a GET, or the message "Item updated." with
    the redirect to [items]. *)
Inductive EditReply :=
| EditNotFound
| EditForm (item : Item)
| EditUpdated.

(** [UNIQUE] on [Item.sku] at an UPDATE: the new sku, when not NULL, may
    not be carried by a row with another key. *)
Definition sku_taken_by_other (it : Item) (its : list Item) : bool :=
  match i_sku it with
  | None => false
  | Some _ =>
      existsb (fun it' => bool_decide (i_sku it' = i_sku it)
                          && negb (bool_decide (i_id it' = i_id it))) its
  end.

(** The row with the key of [it] takes the columns of [it]. *)
Definition replace_item (it : Item) (its : list Item) : list Item :=
  map (fun it' => if bool_decide (i_id it' = i_id it) then it else it') its.

Definition update_item (it : Item) (db : DB) : result DB :=
  if sku_taken_by_other it (items db) then Raise IntegrityError
  else Val (mkDB (replace_item it (items db)) (donors db) (beneficiaries db)
                 (transactions db)).

(** [db.session.commit()] with one modified item: the flush issues its
    UPDATE; a failed UPDATE rolls the transaction back. *)
Definition commit_update (it : Item) : M () :=
  (_ <- flush ;;
   fun s => match update_item it (work s) with
            | Val db' => (Val (), mkSession db' db' (pending s) (flashes s))
            | Raise e => (Raise e, mkSession (committed s) (committed s) [] (flashes s))
            end)%session.

Definition item_edit (method : Method) (item_id : Z) (form : gmap string string)
  : M EditReply :=
  (item <- query (fun db =>
             List.find (fun it => bool_decide (i_id it = item_id)) (items db)) ;;
   match item with
   | None => ret EditNotFound
   | Some item =>
       match method with
       | POST =>
           name <- lift (form_item form "name") ;;
           let name := Py.strip name in
           let category := Py.or_none (Py.strip (form_get form "category" EmptyString)) in
           let unit := Py.or_str (Py.strip (form_get form "unit" "unit")) "unit" in
           let sku := Py.or_none (Py.strip (form_get form "sku" EmptyString)) in
           min_qty <- lift (form_min_qty form) ;;
           let notes := Py.or_none (Py.strip (form_get form "notes" EmptyString)) in
           commit_update (mkItem (i_id item) sku name category unit min_qty notes) ;;;
           ret EditUpdated
       | GET => ret (EditForm item)
       end
   end)%session.


(** A form that renames item 1. *)
Definition rename_form : gmap string string :=
  form_of [("name", " Brown rice "); ("category", "Food"); ("unit", "kg")].

(** ** Names *)

(** The words of a text joined by single spaces: [" ".join(s.split())]. *)
Definition squeeze_chars (l : list ascii) : list ascii :=
  Py.join_chars [" "%char] (Py.split_chars l []).

(** A name with no whitespace at its ends and single spaces between its
    words: collapsing its whitespace changes nothing. *)
Definition whitespace_normal (s : string) : Prop :=
  Py.join " " (Py.split s) = s.

(** A text that SQLite's [lower()] and Python's [str.lower] fold alike:
    it has no capital letter outside A-Z. *)
Definition folds_alike (s : string) : Prop := sql_lower s = Py.lower s.

(** A name in plain form: whitespace-normal and folded alike by the store
    and by Python.  On such a name the query's [lower()] gives the
    normalised name; on other names it does not, and the guard can miss. *)
Definition plain_name (s : string) : Prop := whitespace_normal s /\ folds_alike s.

(** ** The dashboard's figures *)



(** The rows of a list that carry the stock [v], in their order. *)
Definition rows_with_stock (v : Z) (l : list (Item * Z)) : list (Item * Z) :=
  filter (fun row => row.2 = v) l.

(** ** [items] and [report_stock] *)

(** A truth value of SQL; [None] is NULL. *)
Definition sql_or (a b : option bool) : option bool :=
  match a, b with
  | Some true, _ | _, Some true => Some true
  | Some false, Some false => Some false
  | _, _ => None
  end.

(** [WHERE] keeps the rows on which the condition is true, not the ones on
    which it is false or NULL. *)
Definition sql_true (a : option bool) : bool :=
  match a with Some true => true | _ => false end.

(** SQLite's [LIKE]: [%] stands for any run of characters, [_] for any one
    character, every other character for itself, ASCII letters compared
    without case; there is no escape character. *)
Fixpoint like_chars (p : list ascii) : list ascii -> bool :=
  match p with
  | [] => fun s => match s with [] => true | _ => false end
  | c :: p' =>
      if (N_of_ascii c =? 37)%N then
        fix skip (s : list ascii) : bool :=
          like_chars p' s || match s with [] => false | _ :: s' => skip s' end
      else if (N_of_ascii c =? 95)%N then
        fun s => match s with [] => false | _ :: s' => like_chars p' s' end
      else
        fun s => match s with
                 | [] => false
                 | d :: s' => bool_decide (sql_lower_char c = sql_lower_char d)
                              && like_chars p' s'
                 end
  end.

(** [x LIKE pattern] on a nullable column. *)
Definition sql_like (x : option string) (pattern : string) : option bool :=
  match x with
  | Some s => Some (like_chars (list_ascii_of_string pattern) (list_ascii_of_string s))
  | None => None
  end.

(** [request.args.get(k, '')] *)
Definition args_get (args : gmap string string) (k : string) : string :=
  default EmptyString (args !! k).

(** The filter on [q]:
    [func.lower(Item.name).like(like) | func.lower(Item.sku).like(like)]
    with [like = f"%{q.lower()}%"]. *)
Definition matches_q (q : string) (it : Item) : bool :=
  let like := ("%" ++ Py.lower q ++ "%")%string in
  sql_true (sql_or (sql_like (Some (sql_lower (i_name it))) like)
                   (sql_like (sql_lower <$> i_sku it) like)).

(** The filter on the category: [func.lower(Item.category) == cat.lower()]. *)
Definition matches_category (cat : string) (it : Item) : bool :=
  sql_true ((fun c => bool_decide (sql_lower c = Py.lower cat)) <$> i_category it).

(** A stable insertion sort on a comparison [leb]; for [ORDER BY], where
    rows that compare equal come in the order of the table. *)
Fixpoint insert_by {A} (leb : A -> A -> bool) (x : A) (l : list A) : list A :=
  match l with
  | [] => [x]
  | y :: l' => if leb x y then x :: l else y :: insert_by leb x l'
  end.

Definition sort_by {A} (leb : A -> A -> bool) (l : list A) : list A :=
  foldr (insert_by leb) [] l.

(** [ORDER BY Item.name ASC]: the byte order of the names. *)
Definition name_leb (a b : Item * option Z) : bool :=
  String.leb (i_name a.1) (i_name b.1).

(** The rows [items] hands to its template; the handler is called [items]
    in [app.py]. *)
Definition items_route (args : gmap string string) : M (list (Item * option Z)) :=
  let q := Py.strip (args_get args "q") in
  let cat := Py.strip (args_get args "category") in
  query (fun db =>
    let rows := get_stock_query db in
    let rows := if Py.truthy_str q
                then List.filter (fun row => matches_q q row.1) rows else rows in
    let rows := if Py.truthy_str cat
                then List.filter (fun row => matches_category cat row.1) rows else rows in
    sort_by name_leb rows).

(** [ORDER BY Item.category ASC, Item.name ASC]; NULL sorts first. *)
Definition category_compare (a b : option string) : comparison :=
  match a, b with
  | None, None => Eq
  | None, Some _ => Lt
  | Some _, None => Gt
  | Some x, Some y => String.compare x y
  end.

Definition report_leb (a b : Item * option Z) : bool :=
  match category_compare (i_category a.1) (i_category b.1) with
  | Lt => true
  | Gt => false
  | Eq => String.leb (i_name a.1) (i_name b.1)
  end.

Definition report_stock : M (list (Item * option Z)) :=
  query (fun db => sort_by report_leb (get_stock_query db)).

(** [needle] occurs in [s]. *)
Definition occurs_in (needle s : string) : Prop :=
  exists pre post, s = (pre ++ needle ++ post)%string.

(** No [%] and no [_] in the text. *)
Definition wildcard_free (s : string) : Prop :=
  Forall (fun c => N_of_ascii c <> 37%N /\ N_of_ascii c <> 95%N) (list_ascii_of_string s).

Definition args_of (kvs : list (string * string)) : gmap string string :=
  list_to_map kvs.

(** A catalogue of two items, one with an sku and no category. *)
Definition soap : Item := mkItem 2 (Some "S-9") "Soap" None "pcs" 0 None.
Definition db_two : DB := mkDB [rice; soap] [] [] [].

(** A text made of [%] only. *)
Definition only_percent (s : string) : Prop :=
  Forall (fun c => N_of_ascii c = 37%N) (list_ascii_of_string s).

(** ** Importing a file again *)

(** The rows of a file whose name is not blank. *)
Definition named_rows (rows : list (gmap string Cell)) : list (gmap string Cell) :=
  List.filter (fun row => Py.truthy_str (row_name row)) rows.

(** The guard's query finds an item for the row. *)
Definition row_known (db : DB) (row : gmap string Cell) : Prop :=
  exists e, e ∈ items db
            /\ guard_match (normalize_name (row_name row)) (row_category row)
                 (row_unit row) e = true.

(** ** The soft key of the catalogue *)

(** The triple the duplicate guard is about: the normalised name, the
    category and the unit of an item. *)
Definition soft_key (it : Item) : string * option string * string :=
  (normalize_name (i_name it), i_category it, i_unit it).

Definition soft_unique (db : DB) : Prop := NoDup (soft_key <$> items db).

Definition names_normal (db : DB) : Prop :=
  Forall (fun it => plain_name (i_name it)) (items db).

(** * Balances *)

(** No item of the catalogue has a negative balance, a NULL stock
    counting as 0. *)
Definition balances_nonnegative (db : DB) : Prop :=
  Forall (fun it => 0 <= default 0 (stock_of_id (i_id it) (transactions db))) (items db).

(** * [storage_service.py]: the check on the name of an upload *)

Definition ALLOWED_EXTENSIONS : list string :=
  ["png"; "jpg"; "jpeg"; "gif"; "pdf"; "doc"; "docx"; "txt"; "csv"; "xlsx"].

(** [s.rsplit(sep, 1)] for a separator of one character: the text alone
    when the separator does not occur in it, else what is before and what
    is after the last occurrence. *)
Fixpoint rsplit1_chars (sep : ascii) (l : list ascii) : list (list ascii) :=
  match l with
  | [] => [[]]
  | c :: l' =>
      match rsplit1_chars sep l' with
      | [w] => if Ascii.eqb c sep then [[]; w] else [c :: w]
      | h :: t => (c :: h) :: t
      | [] => []
      end
  end.

Definition rsplit1 (sep : ascii) (s : string) : list string :=
  map string_of_list_ascii (rsplit1_chars sep (list_ascii_of_string s)).

(** [sep in s] for one character. *)
Definition contains_char (sep : ascii) (s : string) : bool :=
  existsb (Ascii.eqb sep) (list_ascii_of_string s).

(** [allowed_file]: [and] evaluates its right operand only when the left
    one is true; [None] stands for the [IndexError] of the subscript
    [[1]]. *)
Definition allowed_file (filename : string) : option bool :=
  if contains_char "." filename
  then match rsplit1 "." filename !! 1%nat with
       | Some ext => Some (bool_decide (Py.lower ext ∈ ALLOWED_EXTENSIONS))
       | None => None
       end
  else Some false.

(** * Properties *)

(** ** The Python primitives on examples *)

Example strip_ex : Py.strip "  Rice Bag " = "Rice Bag".
Proof. reflexivity. Qed.
Example split_ex : Py.split " a  b c " = ["a"; "b"; "c"].
Proof. reflexivity. Qed.
Example int_ex : Py.int_of_str " -1_0 " = Some (-10) /\ Py.int_of_str "abc" = None
                 /\ Py.int_of_str EmptyString = None /\ Py.int_of_str "+7" = Some 7
                 /\ Py.int_of_str "1__0" = None /\ Py.int_of_str "5.0" = None.
Proof. repeat split; reflexivity. Qed.
Example str_ex : Py.str_of_int 0 = "0" /\ Py.str_of_int (-12) = "-12".
Proof. split; reflexivity. Qed.
Example fold_ex :
  Py.lower ecole_kit = ecole_kit_lower /\ sql_lower ecole_kit = ecole_kit
  /\ Py.lower "RICE" = sql_lower "RICE"
  /\ Py.strip (String (ascii_of_N 160) "a") = "a".
Proof. repeat split; reflexivity. Qed.

Example intake_then_stock :
  let out := intake POST (form_of [("item_id", "1"); ("qty", "20")])
               (fresh_session db_rice) in
  out.1 = Val (Redirect "dashboard" None)
  /\ get_stock_query (committed out.2) = [(rice, Some 20)].
Proof. vm_compute. split; reflexivity. Qed.

(** ** The balance projector *)

Lemma omap_stock_case (rows : list Transaction) :
  omap id (stock_case <$> (Some <$> rows)) = signed_qty <$> rows.
Proof. induction rows as [|t rows IH]; [done|]. cbn. by rewrite IH. Qed.

(** The aggregate of one item's group. *)
Lemma item_stock_eq (it : Item) (txs : list Transaction) :
  sql_sum (stock_case <$> outer_join it txs) =
  match item_entries (i_id it) txs with
  | [] => None
  | rows => Some (foldr Z.add 0 (signed_qty <$> rows))
  end.
Proof.
  unfold outer_join, item_entries.
  destruct (filter _ txs) as [|t rows] eqn:E; [done|].
  unfold sql_sum. by rewrite omap_stock_case.
Qed.


Lemma foldr_add_perm (l l' : list Z) : l ≡ₚ l' -> foldr Z.add 0 l = foldr Z.add 0 l'.
Proof. induction 1; cbn; lia. Qed.

Lemma get_stock_query_perm (its : list Item) (txs txs' : list Transaction)
    ds bs ds' bs' :
  txs ≡ₚ txs' ->
  get_stock_query (mkDB its ds bs txs) = get_stock_query (mkDB its ds' bs' txs').
Proof.
  intros Hp. unfold get_stock_query. cbn [items transactions].
  apply map_ext. intros it. f_equal. rewrite !item_stock_eq.
  assert (Hf : item_entries (i_id it) txs ≡ₚ item_entries (i_id it) txs')
    by (unfold item_entries; by rewrite Hp).
  destruct (item_entries (i_id it) txs) as [|t rows] eqn:E1;
    destruct (item_entries (i_id it) txs') as [|t' rows'] eqn:E2;
    [done | by apply Permutation_length in Hf | by apply Permutation_length in Hf |].
  f_equal. apply foldr_add_perm. by rewrite Hf.
Qed.


Lemma get_stock_query_items (db : DB) : (get_stock_query db).*1 = items db.
Proof.
  unfold get_stock_query. induction (items db) as [|it its IH]; [done|].
  cbn. by rewrite IH.
Qed.

Lemma get_stock_query_row (db : DB) (it : Item) (stock : option Z) :
  (it, stock) ∈ get_stock_query db ->
  it ∈ items db
  /\ stock = sql_sum (stock_case <$> outer_join it (transactions db)).
Proof.
  unfold get_stock_query. rewrite list_elem_of_In, in_map_iff.
  intros (it' & [= -> ->] & Hin). by rewrite list_elem_of_In.
Qed.

(** *** The aggregate as the store computes it *)

Example sqlite_sum_ex :
  sqlite_sum [] = Val None
  /\ sqlite_sum [None] = Val None
  /\ sqlite_sum [Some (SqlInt 20); None; Some (SqlInt (-5))] = Val (Some (SqlInt 15))
  /\ sqlite_sum [Some (SqlInt (2 ^ 63 - 1)); Some (SqlInt 5); Some (SqlInt (-9))]
     = Raise OperationalError
  /\ sqlite_sum [Some (sql_neg (- 2 ^ 63)); Some (SqlInt (2 ^ 63 - 1)); Some (SqlInt 5)]
     = Val (Some SqlReal)
  /\ sqlite_sum [Some (SqlInt (2 ^ 63 - 1)); Some (SqlInt 5); Some (sql_neg (- 2 ^ 63))]
     = Raise OperationalError.
Proof. vm_compute. repeat split; reflexivity. Qed.

















(** ** The dashboard's low-stock list *)

Lemma insert_by_stock_perm (x : Item * Z) (l : list (Item * Z)) :
  insert_by_stock x l ≡ₚ x :: l.
Proof.
  induction l as [|y l IH]; [done|]. cbn. case_bool_decide; [done|].
  rewrite IH. apply Permutation_swap.
Qed.

Lemma sort_by_stock_perm (l : list (Item * Z)) : sort_by_stock l ≡ₚ l.
Proof.
  induction l as [|x l IH]; [done|]. cbn.
  by rewrite insert_by_stock_perm, IH.
Qed.

Lemma elem_of_low_rows (rows : list (Item * option Z)) (it : Item) (s : Z) :
  (it, s) ∈ low_rows rows <->
  exists stock, (it, stock) ∈ rows /\ s = or_zero stock /\ low_stock_flag it s = true.
Proof.
  induction rows as [|[it' stock'] rows IH]; cbn.
  - split; [by intros ?%elem_of_nil | by intros (? & ?%elem_of_nil & _)].
  - destruct (low_stock_flag it' (or_zero stock')) eqn:Hf.
    + rewrite elem_of_cons, IH. split.
      * intros [[= -> ->] | (stock & Hin & Hs & Hl)].
        -- exists stock'. split; [left|]; done.
        -- exists stock. split; [by right|done].
      * intros (stock & [[= -> ->] | Hin]%elem_of_cons & -> & Hl); [by left|].
        right. by exists stock.
    + rewrite IH. split.
      * intros (stock & Hin & Hs & Hl). exists stock. split; [by right|done].
      * intros (stock & [[= -> ->] | Hin]%elem_of_cons & -> & Hl); [congruence|].
        by exists stock.
Qed.

(** With nothing pending a flush changes nothing, so the dashboard of a
    fresh session reads the committed tables. *)
Lemma dashboard_fresh (db : DB) :
  dashboard (fresh_session db)
  = (Val (mkDashboard (Z.of_nat (length (items db)))
            (foldr Z.add 0 (map (fun row => or_zero row.2) (get_stock_query db)))
            (sort_by_stock (low_rows (get_stock_query db)))),
     fresh_session db).
Proof. reflexivity. Qed.

Lemma elem_of_dashboard_low (db : DB) (it : Item) (s : Z) :
  (it, s) ∈ dashboard_low db <->
  exists stock, (it, stock) ∈ get_stock_query db /\ s = or_zero stock
                /\ low_stock_flag it s = true.
Proof.
  unfold dashboard_low. rewrite dashboard_fresh. cbn [fst low_stock].
  rewrite sort_by_stock_perm. apply elem_of_low_rows.
Qed.

Lemma low_stock_flag_true (it : Item) (stock : Z) :
  low_stock_flag it stock = true <-> i_min_qty it <> 0 /\ stock < i_min_qty it.
Proof.
  unfold low_stock_flag. rewrite andb_true_iff, !bool_decide_eq_true. done.
Qed.

(** C4, as the code has it.  The flag of line 86 is true exactly when
    [min_qty] is non-zero and the stock is strictly below it; it is false
    whenever [min_qty] is 0; and for a threshold that is not negative this
    is the test [min_qty > 0 and stock < min_qty].  The dashboard lists
    exactly the rows that pass the test on the stock read as [stock or 0]. *)
Theorem low_stock_flag_spec (it : Item) (stock : Z) :
  (low_stock_flag it stock = true <-> i_min_qty it <> 0 /\ stock < i_min_qty it)
  /\ (i_min_qty it = 0 -> low_stock_flag it stock = false)
  /\ (0 <= i_min_qty it ->
      (low_stock_flag it stock = true <-> i_min_qty it > 0 /\ stock < i_min_qty it))
  /\ (forall db, (it, stock) ∈ dashboard_low db <->
        exists s, (it, s) ∈ get_stock_query db /\ stock = or_zero s
                  /\ i_min_qty it <> 0 /\ stock < i_min_qty it).
Proof.
  split; [apply low_stock_flag_true|]. split; [|split].
  - intros H0. apply not_true_is_false. rewrite low_stock_flag_true. lia.
  - intros Hnn. rewrite low_stock_flag_true. lia.
  - intros db. rewrite elem_of_dashboard_low.
    by setoid_rewrite low_stock_flag_true.
Qed.

Lemma low_stock_flag_spec_witness :
  0 <= i_min_qty rice
  /\ (low_stock_flag rice 5 = true <-> i_min_qty rice > 0 /\ 5 < i_min_qty rice).
Proof.
  split; [vm_compute; discriminate|].
  apply (proj1 (proj2 (proj2 (low_stock_flag_spec rice 5)))).
  vm_compute; discriminate.
Defined.

(** A threshold below zero with a stock further below: the item is listed
    although [min_qty > 0] fails. *)
Lemma low_stock_flag_negative_min_qty :
  committed (intake POST owed_intake
               (fresh_session
                  (committed (item_new POST owed_form (fresh_session empty_db)).2))).2
  = db_owed
  /\ get_stock_query db_owed = [(owed, Some (-2))]
  /\ low_stock_flag owed (-2) = true
  /\ dashboard_low db_owed = [(owed, -2)]
  /\ ~ (low_stock_flag owed (-2) = true <-> i_min_qty owed > 0 /\ -2 < i_min_qty owed).
Proof.
  split; [reflexivity|]. split; [reflexivity|]. split; [reflexivity|].
  split; [reflexivity|].
  intros [H _]. specialize (H eq_refl). cbn in H. lia.
Qed.



(** ** The stock check of [distribute] *)

Lemma stock_map_fold_lookup (f : Z -> option Z) (rows : list (Item * option Z))
    (m : gmap Z (option Z)) (k : Z) :
  (forall row, row ∈ rows -> row.2 = f (i_id row.1)) ->
  foldl (fun m row => <[i_id row.1 := row.2]> m) m rows !! k
  = if decide (k ∈ (fun row => i_id row.1) <$> rows) then Some (f k) else m !! k.
Proof.
  revert m. induction rows as [|row rows IH]; intros m Hf; [done|].
  cbn [foldl]. rewrite IH by (intros r Hr; apply Hf; by right).
  rewrite fmap_cons.
  destruct (decide (k ∈ _ <$> rows)) as [Hin|Hnin].
  - rewrite decide_True by (by right). done.
  - destruct (decide (k = i_id row.1)) as [->|Hne].
    + rewrite decide_True by (by left). rewrite lookup_insert_eq.
      f_equal. apply Hf. by left.
    + rewrite decide_False by (intros [?|?]%elem_of_cons; done).
      by rewrite lookup_insert_ne.
Qed.

(** The value the stock check compares with [qty]. *)
Lemma stock_map_get_query (db : DB) (k : Z) :
  stock_map_get (stock_map (get_stock_query db)) k
  = if decide (k ∈ i_id <$> items db) then stock_of_id k (transactions db) else Some 0.
Proof.
  unfold stock_map_get, stock_map.
  rewrite (stock_map_fold_lookup (fun k => stock_of_id k (transactions db))).
  - assert (Hids : (fun row : Item * option Z => i_id row.1) <$> get_stock_query db
                   = i_id <$> items db).
    { unfold get_stock_query. rewrite <- list_fmap_compose. done. }
    rewrite Hids. by destruct (decide _).
  - intros [it s] [_ ->]%get_stock_query_row. apply item_stock_eq.
Qed.

Lemma get_stock_query_ext (db db' : DB) :
  items db' = items db -> transactions db' = transactions db ->
  get_stock_query db' = get_stock_query db.
Proof. unfold get_stock_query. by intros -> ->. Qed.

Lemma distribute_beneficiary_fresh (db : DB) (name parish : option string) :
  distribute_beneficiary name parish (fresh_session db)
  = match name with
    | None => (Val None, fresh_session db)
    | Some n =>
        match beneficiary_known name db with
        | Some b => (Val (Some (b_id b)), fresh_session db)
        | None =>
            let b := new_beneficiary db n parish in
            (Val (Some (b_id b)), mkSession db (with_beneficiary db b) [] [])
        end
    end.
Proof.
  destruct name as [n|]; [|done].
  unfold distribute_beneficiary, beneficiary_known.
  unfold bind, query, flush, fresh_session. cbn.
  destruct (List.find _ (beneficiaries db)) as [b|]; done.
Qed.

Lemma distribute_beneficiary_run (db : DB) (name parish : option string) :
  distribute_beneficiary name parish (mkSession db db [] [])
  = (Val (after_beneficiary db name parish).1, (after_beneficiary db name parish).2).
Proof.
  change (mkSession db db [] []) with (fresh_session db).
  rewrite distribute_beneficiary_fresh. unfold after_beneficiary.
  destruct name as [n|]; [|done]. by destruct (beneficiary_known _ _).
Qed.

Lemma after_beneficiary_inv (db : DB) (name parish : option string) :
  let s := (after_beneficiary db name parish).2 in
  committed s = db /\ pending s = [] /\ flashes s = []
  /\ items (work s) = items db /\ transactions (work s) = transactions db
  /\ donors (work s) = donors db.
Proof.
  unfold after_beneficiary. destruct name as [n|]; [|done].
  by destruct (beneficiary_known _ _).
Qed.

Lemma query_no_pending {A} (f : DB -> A) (s : Session) :
  pending s = [] -> query f s = (Val (f (work s)), s).
Proof. destruct s as [c w p fl]. cbn. intros ->. reflexivity. Qed.

Ltac read_form H :=
  unfold bind at 1; unfold lift at 1; rewrite H; cbv beta iota.

(** The handler up to the stock check: the form is read, the beneficiary is
    found or created, the stock rows are queried. *)
Lemma distribute_post (db : DB) (form : gmap string string) i q loc :
  form_reads form i q loc ->
  let bs := after_beneficiary db (form_beneficiary_name form) (form_parish form) in
  distribute POST form (fresh_session db)
  = match stock_map_get (stock_map (get_stock_query db)) i with
    | None => (Raise TypeError, bs.2)
    | Some stock =>
        if bool_decide (stock < q)
        then (flash FlashInsufficient ;;; ret (Redirect "distribute" None)) bs.2
        else (session_add (OTransaction (mkTransaction 0 i "OUT" q loc None bs.1
                                           (form_notes form))) ;;;
              commit ;;;
              flash FlashDistribution ;;;
              ret (Redirect "dashboard" None)) bs.2
    end.
Proof.
  intros (Hi & Hq & Hl) bs.
  unfold distribute. unfold bind at 1.
  cbn [query bind flush fresh_session pending work insert_all committed flashes].
  read_form Hi. read_form Hq. read_form Hl.
  unfold bind at 1. rewrite distribute_beneficiary_run.
  fold (form_beneficiary_name form) (form_parish form) (form_notes form). fold bs.
  cbv beta iota.
  destruct (after_beneficiary_inv db (form_beneficiary_name form) (form_parish form))
    as (Hc & Hp & Hf & Hit & Htx & _). fold bs in Hc, Hp, Hf, Hit, Htx.
  unfold bind at 1. rewrite (query_no_pending _ _ Hp). cbv beta iota.
  rewrite (get_stock_query_ext db (work bs.2) Hit Htx).
  destruct (stock_map_get _ i) as [stock|]; [|done].
  by case_bool_decide.
Qed.


(** C9, as the code behaves.  For an item of the catalogue with no ledger
    entry the stock looked up is NULL ([None]), not a number, and the
    comparison [None < qty] raises [TypeError] for every quantity, a
    positive one included: the stock check does not complete.  Nothing is
    committed and no message is flashed. *)
Theorem distribute_no_entries_raises (db : DB) (form : gmap string string) i q loc :
  form_reads form i q loc ->
  i ∈ i_id <$> items db ->
  item_entries i (transactions db) = [] ->
  0 < q ->
  let out := distribute POST form (fresh_session db) in
  stock_map_get (stock_map (get_stock_query db)) i = None
  /\ out.1 = Raise TypeError
  /\ committed out.2 = db
  /\ flashes out.2 = [].
Proof.
  intros Hr Hin Hnone _ out.
  assert (Hs : stock_map_get (stock_map (get_stock_query db)) i = None).
  { rewrite stock_map_get_query, decide_True by done.
    unfold stock_of_id. by rewrite Hnone. }
  split; [done|]. unfold out. rewrite (distribute_post _ _ _ _ _ Hr), Hs.
  destruct (after_beneficiary_inv db (form_beneficiary_name form) (form_parish form))
    as (Hc & Hp & Hf & _).
  done.
Qed.

Lemma distribute_no_entries_raises_witness :
  (distribute POST (form_of [("item_id", "1"); ("qty", "1")]) (fresh_session db_rice)).1
  = Raise TypeError.
Proof.
  refine (proj1 (proj2 (distribute_no_entries_raises db_rice
            (form_of [("item_id", "1"); ("qty", "1")]) 1 1 None _ _ _ _))).
  - repeat split; reflexivity.
  - vm_compute. left.
  - reflexivity.
  - lia.
Defined.

(** C2 at an item without entries.  Rice is in the catalogue with an empty
    ledger, so its balance read by the dashboard is 0; asking for 5 is more
    than that, yet the request is not turned down with the
    insufficient-stock message: it raises [TypeError].  No ledger entry is
    written. *)
Theorem distribute_over_zero_balance_raises :
  (forall stock, (rice, stock) ∈ get_stock_query db_rice -> or_zero stock = 0)
  /\ distribute POST ask_five (fresh_session db_rice)
     = (Raise TypeError, fresh_session db_rice)
  /\ (distribute POST ask_five (fresh_session db_rice)).1
     <> Val (Redirect "distribute" None)
  /\ FlashInsufficient ∉ flashes (distribute POST ask_five (fresh_session db_rice)).2.
Proof.
  split.
  - intros stock [_ ->]%get_stock_query_row. reflexivity.
  - assert (H : distribute POST ask_five (fresh_session db_rice)
                = (Raise TypeError, fresh_session db_rice))
      by (vm_compute; reflexivity).
    rewrite H. split; [done|]. split; [done|]. cbn. apply not_elem_of_nil.
Qed.

(** C10, as the code has it.  A request that names a beneficiary no row
    carries, and that is then turned down for insufficient stock, adds the
    Beneficiary row and flushes it before the stock check: inside the open
    transaction the table has one more row.  The rejection commits
    nothing, and the end of the request rolls the open transaction back:
    the committed Beneficiary table, which is what the next request finds,
    is the one before the request, and the new row is not in it. *)
Theorem distribute_rejected_discards_beneficiary (db : DB) (form : gmap string string)
    i q loc name stock :
  form_reads form i q loc ->
  form_beneficiary_name form = Some name ->
  beneficiary_known (Some name) db = None ->
  stock_map_get (stock_map (get_stock_query db)) i = Some stock ->
  stock < q ->
  let b := new_beneficiary db name (form_parish form) in
  let out := distribute POST form (fresh_session db) in
  distribute_beneficiary (Some name) (form_parish form) (fresh_session db)
  = (Val (Some (b_id b)), mkSession db (with_beneficiary db b) [] [])
  /\ out = (Val (Redirect "distribute" None),
            mkSession db (with_beneficiary db b) [] [FlashInsufficient])
  /\ beneficiaries (work out.2) = (beneficiaries db ++ [b])%list
  /\ committed out.2 = db
  /\ end_request out.2 = mkSession db db [] [FlashInsufficient]
  /\ b ∉ beneficiaries (committed (end_request out.2)).
Proof.
  intros Hr Hn Hk Hs Hlt b out.
  assert (Hout : out = (Val (Redirect "distribute" None),
                        mkSession db (with_beneficiary db b) [] [FlashInsufficient])).
  { unfold out. rewrite (distribute_post _ _ _ _ _ Hr), Hs, Hn.
    rewrite bool_decide_eq_true_2 by done.
    unfold after_beneficiary. rewrite Hk. reflexivity. }
  split; [|rewrite Hout; repeat split].
  - rewrite distribute_beneficiary_fresh. by rewrite Hk.
  - cbn. intros Hin. unfold beneficiary_known in Hk.
    apply list_elem_of_In in Hin.
    pose proof (find_none _ _ Hk b Hin) as Hb. cbn in Hb.
    by rewrite bool_decide_eq_true_2 in Hb.
Qed.

Lemma distribute_rejected_discards_beneficiary_witness :
  end_request
    (distribute POST
       (form_of [("item_id", "1"); ("qty", "6"); ("beneficiary_name", "Shelter 4")])
       (fresh_session db_stocked)).2
  = mkSession db_stocked db_stocked [] [FlashInsufficient].
Proof.
  refine (proj1 (proj2 (proj2 (proj2 (proj2
            (distribute_rejected_discards_beneficiary db_stocked
               (form_of [("item_id", "1"); ("qty", "6"); ("beneficiary_name", "Shelter 4")])
               1 6 None "Shelter 4" 5 _ _ _ _ _)))))).
  - repeat split; reflexivity.
  - reflexivity.
  - reflexivity.
  - reflexivity.
  - lia.
Defined.

(** The claim as stated fails.  Asking for 6 of the 5 units of Rice on
    behalf of "Shelter 4", a name no row carries, is turned down; the
    Beneficiary table was empty before the request and is empty after
    it. *)
Lemma distribute_rejected_state_unchanged :
  (distribute POST
     (form_of [("item_id", "1"); ("qty", "6"); ("beneficiary_name", "Shelter 4")])
     (fresh_session db_stocked)).1
  = Val (Redirect "distribute" None)
  /\ beneficiaries db_stocked = []
  /\ beneficiaries
       (committed
          (distribute POST
             (form_of [("item_id", "1"); ("qty", "6"); ("beneficiary_name", "Shelter 4")])
             (fresh_session db_stocked)).2)
     = beneficiaries db_stocked
  /\ work (end_request
             (distribute POST
                (form_of [("item_id", "1"); ("qty", "6");
                          ("beneficiary_name", "Shelter 4")])
                (fresh_session db_stocked)).2)
     = db_stocked.
Proof. vm_compute. repeat split; reflexivity. Qed.

(** ** [intake] *)






(** ** Name normalisation *)

Lemma normalize_name_chars (s : string) :
  normalize_name s = string_of_list_ascii (normalize_chars (list_ascii_of_string s)).
Proof.
  unfold normalize_name, normalize_chars, Py.join, Py.split, Py.lower, Py.strip.
  rewrite !list_ascii_of_string_of_list_ascii. f_equal. f_equal.
  rewrite map_map. erewrite map_ext; [apply map_id|].
  intros w. apply list_ascii_of_string_of_list_ascii.
Qed.

Lemma isspace_lower_char (c : ascii) : Py.isspace (Py.lower_char c) = Py.isspace c.
Proof. destruct c as [[] [] [] [] [] [] [] []]; reflexivity. Qed.

Lemma lower_lstrip (l : list ascii) :
  map Py.lower_char (Py.lstrip_chars l) = Py.lstrip_chars (map Py.lower_char l).
Proof.
  induction l as [|c l IH]; [done|]. cbn.
  rewrite isspace_lower_char. by destruct (Py.isspace c).
Qed.

Lemma lower_strip (l : list ascii) :
  map Py.lower_char (Py.strip_chars l) = Py.strip_chars (map Py.lower_char l).
Proof.
  unfold Py.strip_chars, Py.rstrip_chars.
  by rewrite map_rev, lower_lstrip, map_rev, lower_lstrip.
Qed.

(** Leading and trailing whitespace carries no word. *)
Lemma split_lstrip (l : list ascii) :
  Py.split_chars (Py.lstrip_chars l) [] = Py.split_chars l [].
Proof.
  induction l as [|c l IH]; [done|]. cbn. destruct (Py.isspace c) eqn:E; [done|].
  cbn. by rewrite E.
Qed.

Lemma lstrip_decompose (l : list ascii) :
  exists sp, l = (sp ++ Py.lstrip_chars l)%list /\ Forall (fun c => Py.isspace c = true) sp.
Proof.
  induction l as [|c l (sp & Hl & Hsp)].
  - by exists [].
  - cbn. destruct (Py.isspace c) eqn:E.
    + exists (c :: sp). split; [cbn; congruence | by constructor].
    + by exists [].
Qed.

Lemma rstrip_decompose (l : list ascii) :
  exists sp, l = (Py.rstrip_chars l ++ sp)%list /\ Forall (fun c => Py.isspace c = true) sp.
Proof.
  destruct (lstrip_decompose (rev l)) as (sp & Hl & Hsp).
  exists (rev sp). split.
  - unfold Py.rstrip_chars. rewrite <- rev_app_distr, <- Hl. by rewrite rev_involutive.
  - by apply Forall_rev.
Qed.

Lemma split_spaces (sp cur : list ascii) :
  Forall (fun c => Py.isspace c = true) sp ->
  Py.split_chars sp cur = match cur with [] => [] | _ => [rev cur] end.
Proof.
  intros Hsp. revert cur. induction Hsp as [|c sp Hc _ IH]; intros cur; [done|].
  cbn. rewrite Hc. destruct cur; rewrite IH; done.
Qed.

Lemma split_trailing_spaces (l sp cur : list ascii) :
  Forall (fun c => Py.isspace c = true) sp ->
  Py.split_chars (l ++ sp) cur = Py.split_chars l cur.
Proof.
  intros Hsp. revert cur. induction l as [|c l IH]; intros cur.
  - cbn. by apply split_spaces.
  - cbn. destruct (Py.isspace c); [destruct cur|]; by rewrite IH.
Qed.

Lemma split_strip (l : list ascii) :
  Py.split_chars (Py.strip_chars l) [] = Py.split_chars l [].
Proof.
  unfold Py.strip_chars.
  destruct (rstrip_decompose (Py.lstrip_chars l)) as (sp & Hl & Hsp).
  rewrite <- (split_lstrip l). rewrite Hl at 2.
  by rewrite split_trailing_spaces.
Qed.

Lemma split_words (l cur : list ascii) :
  Forall (fun c => Py.isspace c = false) cur ->
  Forall is_word (Py.split_chars l cur).
Proof.
  revert cur. induction l as [|c l IH]; intros cur Hcur; cbn.
  - destruct cur as [|c' cur']; [constructor|].
    constructor; [|constructor]. split.
    + intros H%(f_equal (@length ascii)). rewrite length_rev in H. done.
    + by apply Forall_rev.
  - destruct (Py.isspace c) eqn:E.
    + destruct cur as [|c' cur']; [by apply IH|].
      constructor; [|by apply IH]. split.
      * intros H%(f_equal (@length ascii)). rewrite length_rev in H. done.
      * by apply Forall_rev.
    + apply IH. by constructor.
Qed.

Lemma split_word_prefix (w rest cur : list ascii) :
  Forall (fun c => Py.isspace c = false) w ->
  Py.split_chars (w ++ rest) cur = Py.split_chars rest (rev w ++ cur).
Proof.
  intros Hw. revert cur. induction Hw as [|c w Hc _ IH]; intros cur; [done|].
  cbn. rewrite Hc, IH. by rewrite <- app_assoc.
Qed.

Lemma split_join (ws : list (list ascii)) :
  Forall is_word ws ->
  Py.split_chars (Py.join_chars [" "%char] ws) [] = ws.
Proof.
  induction 1 as [|w ws [Hne Hw] Hws IH]; [done|].
  assert (Hrev : rev w <> []).
  { intros H%(f_equal (@length ascii)). rewrite length_rev in H. by destruct w. }
  destruct ws as [|w' ws'].
  - cbn. rewrite <- (app_nil_r w) at 1. rewrite split_word_prefix by done.
    cbn. rewrite app_nil_r. destruct (rev w) eqn:E; [done|].
    by rewrite <- E, rev_involutive.
  - change (Py.join_chars [" "%char] (w :: w' :: ws'))
      with (w ++ " "%char :: Py.join_chars [" "%char] (w' :: ws'))%list.
    rewrite split_word_prefix by done. rewrite app_nil_r.
    cbn [Py.split_chars]. change (Py.isspace " ") with true. cbv iota.
    destruct (rev w) eqn:E; [done|]. rewrite <- E, rev_involutive. by rewrite IH.
Qed.

Example normalize_ex :
  normalize_name "  Rice   BAG " = "rice bag" /\ sql_lower "Rice  Bag" = "rice  bag".
Proof. split; reflexivity. Qed.

(** ** [item_new] and the duplicate guard *)

Lemma item_new_post (db : DB) (form : gmap string string) raw m :
  item_form_reads form raw m ->
  item_new POST form (fresh_session db)
  = match find_duplicate (normalize_name (Py.strip raw)) (form_category form)
            (form_unit form) db with
    | Some e => (Val (Redirect "item_edit" (Some (i_id e))),
                 mkSession db db [] [FlashDuplicate e])
    | None =>
        if sku_taken (form_sku form) (items db)
        then (Raise IntegrityError, mkSession db db [] [])
        else let db' := with_item db (proposed_item db form raw m) in
             (Val (Redirect "items" None), mkSession db' db' [] [FlashItemCreated])
    end.
Proof.
  intros (Hn & Hm). unfold item_new.
  read_form Hn. read_form Hm.
  fold (form_category form) (form_unit form) (form_sku form) (form_notes form).
  unfold bind at 1. rewrite query_no_pending by done. cbv beta iota.
  cbn [work fresh_session].
  destruct (find_duplicate _ _ _ db) as [e|]; [done|].
  unfold session_add, commit, flush, flash, ret, bind. cbn.
  by destruct (sku_taken _ _).
Qed.

Lemma find_duplicate_Some (norm : string) (cat : option string) (unit : string)
    (db : DB) (e : Item) :
  find_duplicate norm cat unit db = Some e ->
  e ∈ items db /\ sql_lower (i_name e) = norm /\ i_category e = cat /\ i_unit e = unit.
Proof.
  unfold find_duplicate. intros [Hin Hg]%find_some.
  unfold guard_match in Hg. rewrite !andb_true_iff, !bool_decide_eq_true in Hg.
  rewrite list_elem_of_In. tauto.
Qed.

Lemma find_duplicate_None (norm : string) (cat : option string) (unit : string)
    (db : DB) :
  find_duplicate norm cat unit db = None <->
  forall e, e ∈ items db ->
    ~ (sql_lower (i_name e) = norm /\ i_category e = cat /\ i_unit e = unit).
Proof.
  unfold find_duplicate. split.
  - intros Hnone e Hin%list_elem_of_In (H1 & H2 & H3).
    pose proof (find_none _ _ Hnone e Hin) as Hg. unfold guard_match in Hg.
    rewrite !bool_decide_eq_true_2 in Hg by done. done.
  - intros Hall. destruct (List.find _ _) as [e|] eqn:E; [|done].
    apply find_some in E as [Hin Hg]. exfalso. apply (Hall e).
    + by apply list_elem_of_In.
    + unfold guard_match in Hg. rewrite !andb_true_iff, !bool_decide_eq_true in Hg. tauto.
Qed.

(** A key given by [next_id] is larger than every key of the table. *)
Lemma next_id_above (ids : list Z) (x : Z) : x ∈ ids -> x < next_id ids.
Proof.
  unfold next_id. induction ids as [|y ids IH]; [by intros ?%elem_of_nil|].
  intros [->|Hin]%elem_of_cons; cbn; [lia|]. specialize (IH Hin). lia.
Qed.

Lemma find_duplicate_snoc_miss (norm : string) (cat : option string) (unit : string)
    (db : DB) (it : Item) :
  find_duplicate norm cat unit db = None ->
  sql_lower (i_name it) <> norm ->
  find_duplicate norm cat unit (with_item db it) = None.
Proof.
  rewrite !find_duplicate_None. intros Hnone Hne e Hin (H1 & H2 & H3).
  cbn in Hin. apply elem_of_app in Hin as [Hin|Heq%list_elem_of_singleton].
  - by apply (Hnone e Hin).
  - by subst e.
Qed.

(** C6.  The guard misses an item whose stored name is not in normal form.
    The query lower-cases the stored name and compares it with the
    normalised proposal; it neither trims nor collapses the stored name.
    So when a form without sku creates an item whose stripped name is not
    equal, once lower-cased by the query, to its own normalised form (a
    name with two spaces inside, say), submitting the same form again
    creates a second item: the two rows have the same normalised name, the
    same category and the same unit, and nothing is turned down. *)
Theorem item_new_guard_misses_stored_name (db : DB) (form : gmap string string) raw m :
  item_form_reads form raw m ->
  form_sku form = None ->
  sql_lower (Py.strip raw) <> normalize_name (Py.strip raw) ->
  find_duplicate (normalize_name (Py.strip raw)) (form_category form) (form_unit form) db
  = None ->
  let first := proposed_item db form raw m in
  let second := proposed_item (with_item db first) form raw m in
  item_new POST form (fresh_session db)
  = (Val (Redirect "items" None),
     mkSession (with_item db first) (with_item db first) [] [FlashItemCreated])
  /\ item_new POST form (fresh_session (with_item db first))
     = (Val (Redirect "items" None),
        mkSession (with_item (with_item db first) second)
                  (with_item (with_item db first) second) [] [FlashItemCreated])
  /\ items (with_item (with_item db first) second) = (items db ++ [first; second])%list
  /\ i_id first < i_id second
  /\ normalize_name (i_name second) = normalize_name (i_name first)
  /\ i_category second = i_category first
  /\ i_unit second = i_unit first.
Proof.
  intros Hr Hsku Hne Hnone first second.
  split; [|split; [|split; [|split]]].
  - rewrite (item_new_post _ _ _ _ Hr), Hnone, Hsku. reflexivity.
  - rewrite (item_new_post _ _ _ _ Hr), Hsku.
    by rewrite (find_duplicate_snoc_miss _ _ _ db first Hnone Hne).
  - cbn. by rewrite <- app_assoc.
  - apply next_id_above. cbn [with_item items]. rewrite map_app.
    apply elem_of_app. right. by left.
  - done.
Qed.

Lemma item_new_guard_misses_stored_name_witness :
  items (committed (item_new POST (rice_form "Rice  Bag" "kg")
                      (fresh_session db_rice_bag)).2)
  = [mkItem 1 None "Rice  Bag" (Some "Food") "kg" 0 None;
     mkItem 2 None "Rice  Bag" (Some "Food") "kg" 0 None].
Proof.
  pose proof (proj1 (proj2 (item_new_guard_misses_stored_name empty_db
                (rice_form "Rice  Bag" "kg") "Rice  Bag" 0
                ltac:(split; reflexivity) eq_refl ltac:(discriminate) eq_refl))) as H.
  apply (f_equal (fun out => items (committed out.2))) in H.
  vm_compute in H. vm_compute. exact H.
Defined.

(** The same defect on a capital letter outside A-Z: Python folds the E
    acute of the proposal, the store's [lower()] leaves the one of the
    stored name, and the second submission creates a second item. *)
Example item_new_guard_misses_capital :
  normalize_name ecole_kit = ecole_kit_lower
  /\ sql_lower ecole_kit = ecole_kit
  /\ items (committed
              (item_new POST (rice_form ecole_kit "kg")
                 (fresh_session
                    (committed (item_new POST (rice_form ecole_kit "kg")
                                  (fresh_session empty_db)).2))).2)
     = [mkItem 1 None ecole_kit (Some "Food") "kg" 0 None;
        mkItem 2 None ecole_kit (Some "Food") "kg" 0 None].
Proof. vm_compute. repeat split; reflexivity. Qed.

(** The scenario of the spec, where every name is in normal form: after
    [("Rice", "Food", "kg")] is created in an empty catalogue,
    [(" rice ", "Food", "kg")] is turned down with the first item's
    identifier and [("Rice", "Food", "L")] is created. *)
Example item_new_rice_scenario :
  items (committed (item_new POST (rice_form "Rice" "kg") (fresh_session empty_db)).2)
  = [mkItem 1 None "Rice" (Some "Food") "kg" 0 None]
  /\ item_new POST (rice_form " rice " "kg")
       (fresh_session (mkDB [mkItem 1 None "Rice" (Some "Food") "kg" 0 None] [] [] []))
     = (Val (Redirect "item_edit" (Some 1)),
        mkSession (mkDB [mkItem 1 None "Rice" (Some "Food") "kg" 0 None] [] [] [])
                  (mkDB [mkItem 1 None "Rice" (Some "Food") "kg" 0 None] [] [] []) []
          [FlashDuplicate (mkItem 1 None "Rice" (Some "Food") "kg" 0 None)])
  /\ items (committed (item_new POST (rice_form "Rice" "L")
              (fresh_session (mkDB [mkItem 1 None "Rice" (Some "Food") "kg" 0 None]
                                [] [] []))).2)
     = [mkItem 1 None "Rice" (Some "Food") "kg" 0 None;
        mkItem 2 None "Rice" (Some "Food") "L" 0 None].
Proof. vm_compute. repeat split; reflexivity. Qed.

(** ** Bulk import *)

Lemma flush_view (s : Session) (db : DB) :
  flushed_view s = Some db ->
  exists ks, flush s = (Val ks, mkSession (committed s) db [] (flashes s)).
Proof.
  unfold flushed_view, flush.
  destruct (insert_all _ _) as [[ks db']|e]; [|done]. intros [= ->]. by exists ks.
Qed.

Lemma import_row_run (row : gmap string Cell) (c k : Z) (s : Session) (db : DB) :
  flushed_view s = Some db ->
  row_admissible db row = true ->
  exists s',
    import_row row (c, k) s
    = (Val (c + count_outcome Created [row_outcome db row],
            k + count_outcome SkippedDuplicate [row_outcome db row]), s')
    /\ committed s' = committed s /\ flashes s' = flashes s
    /\ flushed_view s' = Some (import_step db row).
Proof.
  intros Hv Hadm. unfold import_row, row_admissible, import_step, row_outcome in *.
  destruct (negb (Py.truthy_str (row_name row))) eqn:Hblank.
  - exists s. cbn. rewrite !Z.add_0_r. done.
  - destruct (row_min_qty row) as [m|e] eqn:Hm.
    2:{ by destruct (find_duplicate _ _ _ db). }
    unfold bind at 1. unfold lift at 1. cbv beta iota.
    destruct (flush_view s db Hv) as (ks & Hflush).
    unfold bind at 1. unfold query. unfold bind at 1. rewrite Hflush. cbv beta iota.
    cbn [work].
    destruct (find_duplicate _ _ _ db) as [e|] eqn:Hdup.
    + eexists. split; [|split; [|split]]; [cbn; rewrite Z.add_0_r; reflexivity|done..].
    + cbn in Hadm. apply negb_true_iff in Hadm.
      eexists. split; [|split; [|split]];
        [unfold bind, session_add, ret; cbn; rewrite Z.add_0_r; reflexivity|done..|].
      unfold flushed_view. cbn. rewrite Hadm.
      unfold with_item, row_item, min_qty_value. by rewrite Hm.
Qed.

Lemma count_outcome_cons (o o' : RowOutcome) (os : list RowOutcome) :
  count_outcome o (o' :: os) = count_outcome o [o'] + count_outcome o os.
Proof.
  unfold count_outcome. rewrite !filter_cons, filter_nil.
  destruct (decide (o' = o)); cbn [length]; lia.
Qed.

Lemma import_rows_run (rows : list (gmap string Cell)) :
  forall (c k : Z) (s : Session) (db : DB),
  flushed_view s = Some db ->
  import_admissible db rows = true ->
  exists s',
    import_rows rows (c, k) s
    = (Val (c + count_outcome Created (import_spec db rows).2,
            k + count_outcome SkippedDuplicate (import_spec db rows).2), s')
    /\ committed s' = committed s /\ flashes s' = flashes s
    /\ flushed_view s' = Some (import_spec db rows).1.
Proof.
  induction rows as [|row rows IH]; intros c k s db Hv Hadm.
  - exists s. cbn. rewrite !Z.add_0_r. done.
  - cbn in Hadm. apply andb_true_iff in Hadm as [Hrow Hrest].
    destruct (import_row_run row c k s db Hv Hrow) as (s1 & Hrun & Hc1 & Hf1 & Hv1).
    destruct (IH (c + count_outcome Created [row_outcome db row])
                 (k + count_outcome SkippedDuplicate [row_outcome db row])
                 s1 _ Hv1 Hrest) as (s' & Hrun' & Hc' & Hf' & Hv').
    exists s'. cbn [import_rows import_spec fst snd]. unfold bind at 1.
    rewrite Hrun. cbv beta iota. rewrite Hrun'.
    rewrite (count_outcome_cons Created _ (import_spec (import_step db row) rows).2),
      (count_outcome_cons SkippedDuplicate _ (import_spec (import_step db row) rows).2).
    rewrite !Z.add_assoc. repeat split; congruence.
Qed.

Lemma import_spec_length (rows : list (gmap string Cell)) (db : DB) :
  length (import_spec db rows).2 = length rows.
Proof. revert db. induction rows as [|row rows IH]; intros db; cbn; [done|]. by rewrite IH. Qed.

Lemma import_spec_items (rows : list (gmap string Cell)) (db : DB) :
  Z.of_nat (length (items (import_spec db rows).1))
  = Z.of_nat (length (items db)) + count_outcome Created (import_spec db rows).2.
Proof.
  revert db. induction rows as [|row rows IH]; intros db; cbn [import_spec fst snd].
  - unfold count_outcome. rewrite filter_nil. cbn. lia.
  - rewrite IH, (count_outcome_cons Created _ (import_spec (import_step db row) rows).2).
    unfold import_step, count_outcome at 2.
    destruct (row_outcome db row); cbn; rewrite ?length_app;
      case_decide; try done; cbn; lia.
Qed.

(** Rows without an [sku] and a [min_qty] column are always ones the loop
    gets through. *)
Lemma import_admissible_plain (rows : list (gmap string Cell)) (db : DB) :
  Forall (fun row : gmap string Cell =>
            row !! "sku" = None /\ row !! "min_qty" = None) rows ->
  import_admissible db rows = true.
Proof.
  intros Hrows. revert db. induction Hrows as [|row rows [Hs Hm] _ IH]; intros db; [done|].
  cbn. rewrite IH, andb_true_r. unfold row_admissible.
  assert (Hq : row_min_qty row = Val 0)
    by (unfold row_min_qty, row_get; by rewrite Hm).
  assert (Hk : row_sku row = None)
    by (unfold row_sku, row_get; by rewrite Hs).
  rewrite Hq, Hk. by destruct (row_outcome db row).
Qed.

Lemma fresh_view (db : DB) : flushed_view (fresh_session db) = Some db.
Proof. reflexivity. Qed.

Lemma import_items_run (db : DB) (rows : list (gmap string Cell)) :
  import_admissible db rows = true ->
  import_items POST (Some rows) (fresh_session db)
  = (Val (Redirect "items" None),
     mkSession (import_spec db rows).1 (import_spec db rows).1 []
       [FlashImport (count_outcome Created (import_spec db rows).2)
                    (count_outcome SkippedDuplicate (import_spec db rows).2)]).
Proof.
  intros Hadm.
  destruct (import_rows_run rows 0 0 _ db (fresh_view db) Hadm)
    as (s' & Hrun & Hc & Hf & Hv).
  unfold import_items. unfold bind at 1. rewrite Hrun. cbv beta iota.
  destruct (flush_view s' _ Hv) as (ks & Hflush).
  unfold commit. unfold bind at 1. unfold bind at 1. rewrite Hflush. cbv beta iota.
  unfold bind, flash, ret. cbn. rewrite Hf. reflexivity.
Qed.

(** C7, as the code has it.  For rows the loop gets through (each
    [min_qty] that is read converts, no created sku is already carried) and
    whose name cell is not NaN, bulk import goes through every row in
    order, on the catalogue as the earlier rows left it: a row whose name
    is empty once rendered and stripped is skipped uncounted, a row for
    which the guard's query finds an item is skipped and counted, every
    other row adds one item; the items are committed and the created and
    skipped counts are flashed.  With Rice in the catalogue, the rows
    Beans, rice (a duplicate) and a name of spaces give one item created
    and the counts (1, 1). *)
Theorem import_items_counts (db : DB) (rows : list (gmap string Cell)) :
  import_admissible db rows = true ->
  Forall (fun row : gmap string Cell => row !! "name" <> Some CNaN) rows ->
  let res := import_spec db rows in
  import_items POST (Some rows) (fresh_session db)
  = (Val (Redirect "items" None),
     mkSession res.1 res.1 []
       [FlashImport (count_outcome Created res.2)
                    (count_outcome SkippedDuplicate res.2)])
  /\ length res.2 = length rows
  /\ Z.of_nat (length (items res.1))
     = Z.of_nat (length (items db)) + count_outcome Created res.2
  /\ (forall dbn row, row_outcome dbn row = SkippedBlank <-> row_name row = EmptyString)
  /\ import_items POST (Some [beans_row; rice_again_row; spaces_row])
       (fresh_session db_rice)
     = (Val (Redirect "items" None),
        mkSession (with_item db_rice (mkItem 2 None "Beans" (Some "Food") "kg" 0 None))
                  (with_item db_rice (mkItem 2 None "Beans" (Some "Food") "kg" 0 None))
                  [] [FlashImport 1 1]).
Proof.
  intros Hadm _ res. split; [by apply import_items_run|].
  split; [apply import_spec_length|]. split; [apply import_spec_items|]. split.
  - intros dbn row. unfold row_outcome.
    destruct (row_name row) eqn:E; cbn; [done|].
    destruct (find_duplicate _ _ _ _); split; discriminate.
  - vm_compute. reflexivity.
Qed.

Lemma import_items_counts_witness :
  import_items POST (Some [beans_row; spaces_row; beans_row]) (fresh_session db_rice)
  = (Val (Redirect "items" None),
     mkSession (with_item db_rice (mkItem 2 None "Beans" (Some "Food") "kg" 0 None))
               (with_item db_rice (mkItem 2 None "Beans" (Some "Food") "kg" 0 None))
               [] [FlashImport 1 1]).
Proof.
  refine (proj1 (import_items_counts db_rice [beans_row; spaces_row; beans_row] _ _)).
  - reflexivity.
  - repeat (constructor; [discriminate|]). constructor.
Defined.

(** Two inputs on which the claim fails.  A row whose [min_qty] is the text
    [abc] stops the batch: [ValueError] leaves the handler, the Beans row
    before it is not committed and no count is flashed.  And in the
    three-row scenario with the third name an empty field, which
    [read_csv] gives as NaN, [str] renders the name as [nan]: the row is
    not skipped, and two items are created. *)
Lemma import_items_stops_or_keeps_nan :
  (import_items POST (Some [beans_five_row; abc_row; beans_five_row])
     (fresh_session db_rice)).1
  = Raise ValueError
  /\ committed (import_items POST (Some [beans_five_row; abc_row; beans_five_row])
                  (fresh_session db_rice)).2 = db_rice
  /\ flashes (import_items POST (Some [beans_five_row; abc_row; beans_five_row])
                (fresh_session db_rice)).2 = []
  /\ import_items POST (Some [beans_row; rice_again_row; empty_name_row])
       (fresh_session db_rice)
     = (Val (Redirect "items" None),
        mkSession
          (mkDB [rice; mkItem 2 None "Beans" (Some "Food") "kg" 0 None;
                 mkItem 3 None "nan" (Some "Food") "kg" 0 None] [] [] [])
          (mkDB [rice; mkItem 2 None "Beans" (Some "Food") "kg" 0 None;
                 mkItem 3 None "nan" (Some "Food") "kg" 0 None] [] [] [])
          [] [FlashImport 2 1]).
Proof. vm_compute. repeat split; reflexivity. Qed.

(** ** A [min_qty] cell that does not convert *)












(** ** The ledger scenario *)

(** The scenario of the spec: item A with [min_qty = 10]; IN 20 and OUT 5
    leave 15, not low; OUT 10 leaves 5, low; OUT 6 is turned down and the
    stock stays 5. *)
Example ledger_scenario :
  get_stock_query (scenario_db 2) = [(item_a, Some 15)]
  /\ dashboard_low (scenario_db 2) = []
  /\ get_stock_query (scenario_db 3) = [(item_a, Some 5)]
  /\ dashboard_low (scenario_db 3) = [(item_a, 5)]
  /\ distribute POST (form_of [("item_id", "1"); ("qty", "6")])
       (fresh_session (scenario_db 3))
     = (Val (Redirect "distribute" None),
        mkSession (scenario_db 3) (scenario_db 3) [] [FlashInsufficient]).
Proof. vm_compute. repeat split; reflexivity. Qed.

(** * Further properties *)

(** ** What every INSERT keeps *)

Section Invariant.

Variable P : DB -> Prop.
Variable allowed : Obj -> Prop.
Hypothesis P_insert :
  forall o db k db', allowed o -> P db -> insert_obj o db = Val (k, db') -> P db'.

Lemma insert_all_keeps (os : list Obj) (db : DB) (ks : list Z) (db' : DB) :
  Forall allowed os -> P db -> insert_all os db = Val (ks, db') -> P db'.
Proof.
  intros Hos. revert db ks. induction Hos as [|o os Ho _ IH]; intros db ks HP; cbn.
  - by intros [= _ <-].
  - destruct (insert_obj o db) as [[k db1]|e] eqn:E1; [|done].
    destruct (insert_all os db1) as [[ks1 db2]|e] eqn:E2; [|done].
    intros [= _ <-]. eapply IH; [|done]. by eapply P_insert.
Qed.

Lemma preserves_ret {A} (a : A) : preserves (holds P allowed) (ret a).
Proof. by intros s. Qed.

Lemma preserves_raise {A} (e : exn) : preserves (holds P allowed) (@raise A e).
Proof. by intros s. Qed.

Lemma preserves_lift {A} (r : result A) : preserves (holds P allowed) (lift r).
Proof. by intros s. Qed.

Lemma preserves_flash (f : Flash) : preserves (holds P allowed) (flash f).
Proof. by intros s. Qed.

Lemma preserves_add (o : Obj) : allowed o -> preserves (holds P allowed) (session_add o).
Proof.
  intros Ho s (Hc & Hw & Hp). cbn. repeat split; [done..|].
  apply Forall_app. split; [done|]. by constructor.
Qed.

Lemma preserves_bind {A B} (m : M A) (f : A -> M B) :
  preserves (holds P allowed) m -> (forall a, preserves (holds P allowed) (f a)) ->
  preserves (holds P allowed) (bind m f).
Proof.
  intros Hm Hf s Hs. unfold bind. specialize (Hm s Hs).
  destruct (m s) as [[a|e] s1]; cbn in Hm; [by apply Hf|done].
Qed.

Lemma preserves_flush : preserves (holds P allowed) flush.
Proof.
  intros s (Hc & Hw & Hp). unfold flush.
  destruct (insert_all _ _) as [[ks db']|e] eqn:E; cbn.
  - repeat split; [done| |constructor]. by eapply insert_all_keeps.
  - repeat split; [done..|constructor].
Qed.

Lemma preserves_commit : preserves (holds P allowed) commit.
Proof.
  unfold commit. apply preserves_bind; [apply preserves_flush|].
  intros _ s (Hc & Hw & Hp). by repeat split.
Qed.

Lemma preserves_query {A} (f : DB -> A) : preserves (holds P allowed) (query f).
Proof.
  unfold query. apply preserves_bind; [apply preserves_flush|]. by intros _ s.
Qed.

End Invariant.

Create HintDb preserve.
#[local] Hint Resolve preserves_ret preserves_raise preserves_lift preserves_flash
  preserves_add preserves_flush preserves_commit preserves_query : preserve.

(** One step of a proof that a handler keeps a property: a primitive of
    the session, a bind, or a branch of the code. *)
Ltac keep_step :=
  first
    [ solve [eauto 3 with preserve]
    | apply preserves_bind; [|intros ?]
    | match goal with
      | |- preserves _ (match ?x with _ => _ end) => destruct x
      | |- preserves _ (if ?b then _ else _) => destruct b
      end ].

Section Handlers.

Variable P : DB -> Prop.
Variable allowed : Obj -> Prop.
Hypothesis P_insert :
  forall o db k db', allowed o -> P db -> insert_obj o db = Val (k, db') -> P db'.
Hypothesis allow_item : forall it, allowed (OItem it).
Hypothesis allow_donor : forall d, allowed (ODonor d).
Hypothesis allow_beneficiary : forall b, allowed (OBeneficiary b).
Hypothesis allow_entry : forall t, allowed (OTransaction t).

Lemma dashboard_keeps : preserves (holds P allowed) dashboard.
Proof using P_insert. unfold dashboard. repeat keep_step. Qed.

Lemma item_new_keeps method form : preserves (holds P allowed) (item_new method form).
Proof using P_insert allow_item. unfold item_new. repeat keep_step. Qed.

Lemma intake_keeps method form : preserves (holds P allowed) (intake method form).
Proof using P_insert allow_donor allow_entry.
  unfold intake, intake_donor. repeat keep_step.
Qed.

Lemma distribute_keeps method form :
  preserves (holds P allowed) (distribute method form).
Proof using P_insert allow_beneficiary allow_entry.
  unfold distribute, distribute_beneficiary. repeat keep_step.
Qed.

Lemma import_rows_keeps rows counts :
  preserves (holds P allowed) (import_rows rows counts).
Proof using P_insert allow_item.
  revert counts. induction rows as [|row rows IH]; intros counts; cbn [import_rows].
  - eauto with preserve.
  - apply preserves_bind; [|done]. unfold import_row. repeat keep_step.
Qed.

Lemma import_items_keeps method file :
  preserves (holds P allowed) (import_items method file).
Proof using P_insert allow_item.
  unfold import_items. destruct method; [eauto with preserve|].
  destruct file as [df|]; [|repeat keep_step].
  apply preserves_bind; [by apply import_rows_keeps|]. intros ?. repeat keep_step.
Qed.

End Handlers.

Lemma holds_fresh (P : DB -> Prop) (allowed : Obj -> Prop) (db : DB) :
  P db -> holds P allowed (fresh_session db).
Proof. intros HP. repeat split; [done..|constructor]. Qed.

(** ** The tables only grow *)

Lemma catalogue_frame_insert (db0 : DB) o db k db' :
  is_item o -> catalogue_frame db0 db -> insert_obj o db = Val (k, db') ->
  catalogue_frame db0 db'.
Proof.
  destruct o as [it| | |]; cbn; try done. intros _ (Hi & Hd & Hb & Ht).
  destruct (sku_taken _ _); [done|]. intros [= _ <-]. cbn.
  repeat split; [by apply prefix_app_r|done..].
Qed.

Lemma intake_frame_insert (db0 : DB) o db k db' :
  is_donor_or_entry o -> intake_frame db0 db -> insert_obj o db = Val (k, db') ->
  intake_frame db0 db'.
Proof.
  destruct o as [|d| |t]; cbn; try done; intros _ (Hi & Hd & Hb & Ht) [= _ <-]; cbn;
    repeat split; try done; by apply prefix_app_r.
Qed.

Lemma distribute_frame_insert (db0 : DB) o db k db' :
  is_beneficiary_or_entry o -> distribute_frame db0 db ->
  insert_obj o db = Val (k, db') -> distribute_frame db0 db'.
Proof.
  destruct o as [| |b|t]; cbn; try done; intros _ (Hi & Hd & Hb & Ht) [= _ <-]; cbn;
    repeat split; try done; by apply prefix_app_r.
Qed.

(** Whatever the request is, and whether the handler returns or raises,
    no committed row is removed, changed or moved: [item_new] and
    [import_items] can only append items, [intake] only donors and ledger
    entries, [distribute] only beneficiaries and ledger entries. *)
Theorem requests_append_only (db : DB) (method : Method) (form : gmap string string)
    (file : option (list (gmap string Cell))) :
  catalogue_frame db (committed (item_new method form (fresh_session db)).2)
  /\ catalogue_frame db (committed (import_items method file (fresh_session db)).2)
  /\ intake_frame db (committed (intake method form (fresh_session db)).2)
  /\ distribute_frame db (committed (distribute method form (fresh_session db)).2).
Proof.
  split; [|split; [|split]].
  - refine (proj1 (item_new_keeps (catalogue_frame db) is_item
                     (catalogue_frame_insert db) _ method form _ (holds_fresh _ _ _ _)));
      [done|by repeat split].
  - refine (proj1 (import_items_keeps (catalogue_frame db) is_item
                     (catalogue_frame_insert db) _ method file _ (holds_fresh _ _ _ _)));
      [done|by repeat split].
  - refine (proj1 (intake_keeps (intake_frame db) is_donor_or_entry
                     (intake_frame_insert db) _ _ method form _ (holds_fresh _ _ _ _)));
      [done|done|by repeat split].
  - refine (proj1 (distribute_keeps (distribute_frame db) is_beneficiary_or_entry
                     (distribute_frame_insert db) _ _ method form _
                     (holds_fresh _ _ _ _)));
      [done|done|by repeat split].
Qed.

(** ** The keys stay unique *)

Lemma foldr_max_ge (ids : list Z) (x : Z) : x ∈ ids -> x <= foldr Z.max 0 ids.
Proof.
  induction ids as [|y ids IH]; [by intros ?%elem_of_nil|].
  intros [->|Hin]%elem_of_cons; cbn; [lia|]. specialize (IH Hin). lia.
Qed.

Lemma next_id_fresh (ids : list Z) : next_id ids ∉ ids.
Proof. intros Hin%foldr_max_ge. unfold next_id in Hin. lia. Qed.

Lemma NoDup_snoc_fresh {A} (f : A -> Z) (l : list A) (x : A) :
  f x = next_id (map f l) -> NoDup (map f l) -> NoDup (map f (l ++ [x])).
Proof.
  intros Hx Hnd. rewrite map_app. apply NoDup_app. split; [done|]. split.
  - cbn. intros y Hy [->|[]%elem_of_nil]%elem_of_cons. rewrite Hx in Hy.
    by apply next_id_fresh in Hy.
  - cbn. apply NoDup_singleton.
Qed.

Lemma sku_taken_false (sku : string) (its : list Item) :
  sku_taken (Some sku) its = false -> sku ∉ omap i_sku its.
Proof.
  cbn. intros Hex (it & Hin & Hsku)%list_elem_of_omap.
  assert (existsb (fun it => bool_decide (i_sku it = Some sku)) its = true); [|congruence].
  apply existsb_exists. exists it. split; [by apply list_elem_of_In|].
  by apply bool_decide_eq_true.
Qed.

Lemma keys_unique_insert o db k db' :
  keys_unique db -> insert_obj o db = Val (k, db') -> keys_unique db'.
Proof.
  intros (Hi & Hd & Hb & Ht & Hs). destruct o as [it|d|b|t]; cbn.
  - destruct (sku_taken _ _) eqn:E; [done|]. intros [= _ <-].
    unfold keys_unique. cbn [items donors beneficiaries transactions].
    repeat split; [by apply NoDup_snoc_fresh|done..|].
    rewrite omap_app. cbn. destruct (i_sku it) as [sku|]; cbn; [|by rewrite app_nil_r].
    apply NoDup_app. split; [done|]. split; [|apply NoDup_singleton].
    intros y Hy [->|[]%elem_of_nil]%elem_of_cons. by apply (sku_taken_false _ _ E).
  - intros [= _ <-]. cbn. repeat split; [done|by apply NoDup_snoc_fresh|done..].
  - intros [= _ <-]. cbn. repeat split; [done..|by apply NoDup_snoc_fresh|done|done].
  - intros [= _ <-]. cbn. repeat split; [done..|by apply NoDup_snoc_fresh|done].
Qed.

(** When the primary keys of every table are pairwise distinct and no two
    items share an sku, the same holds of the tables every request leaves
    committed, on any form or file, whether the handler returns or raises. *)
Theorem requests_keep_keys_unique (db : DB) (method : Method)
    (form : gmap string string) (file : option (list (gmap string Cell))) :
  keys_unique db ->
  keys_unique (committed (item_new method form (fresh_session db)).2)
  /\ keys_unique (committed (import_items method file (fresh_session db)).2)
  /\ keys_unique (committed (intake method form (fresh_session db)).2)
  /\ keys_unique (committed (distribute method form (fresh_session db)).2).
Proof.
  intros Hk.
  pose proof (fun o db k db' (_ : True) => keys_unique_insert o db k db') as Hins.
  pose proof (holds_fresh keys_unique (fun _ => True) db Hk) as Hf.
  split; [|split; [|split]].
  - by apply (item_new_keeps _ _ Hins (fun _ => I) method form _ Hf).
  - by apply (import_items_keeps _ _ Hins (fun _ => I) method file _ Hf).
  - by apply (intake_keeps _ _ Hins (fun _ => I) (fun _ => I) method form _ Hf).
  - by apply (distribute_keeps _ _ Hins (fun _ => I) (fun _ => I) method form _ Hf).
Qed.

Lemma requests_keep_keys_unique_witness :
  keys_unique db_rice
  /\ keys_unique (committed (intake POST give_zero (fresh_session db_rice)).2).
Proof.
  assert (Hk : keys_unique db_rice).
  { repeat split; cbn; repeat constructor; by intros ?%elem_of_nil. }
  split; [done|].
  apply (proj1 (proj2 (proj2 (requests_keep_keys_unique db_rice POST give_zero None Hk)))).
Defined.

(** ** Balances after [intake] and [distribute] *)

Lemma get_stock_query_stock_of_id (db : DB) :
  get_stock_query db
  = map (fun it => (it, stock_of_id (i_id it) (transactions db))) (items db).
Proof. unfold get_stock_query. apply map_ext. intros it. by rewrite item_stock_eq. Qed.

Lemma foldr_add_snoc (l : list Z) (x : Z) :
  foldr Z.add 0 (l ++ [x]) = foldr Z.add 0 l + x.
Proof. induction l as [|y l IH]; cbn; lia. Qed.

Lemma stock_snoc (l : list Transaction) (t : Transaction) :
  match (l ++ [t])%list with
  | [] => None
  | rows => Some (foldr Z.add 0 (signed_qty <$> rows))
  end
  = Some (foldr Z.add 0 (signed_qty <$> l) + signed_qty t).
Proof.
  replace (foldr Z.add 0 (signed_qty <$> l) + signed_qty t)
    with (foldr Z.add 0 (signed_qty <$> (l ++ [t])%list))
    by (rewrite fmap_app; apply foldr_add_snoc).
  by destruct l.
Qed.

Lemma stock_of_id_snoc (k : Z) (txs : list Transaction) (t : Transaction) :
  stock_of_id k (txs ++ [t])
  = if bool_decide (k = t_item_id t)
    then Some (default 0 (stock_of_id k txs) + signed_qty t)
    else stock_of_id k txs.
Proof.
  unfold stock_of_id, item_entries. rewrite filter_app, filter_cons, filter_nil.
  case_bool_decide as Hk.
  - rewrite decide_True by done. rewrite stock_snoc.
    by destruct (filter _ txs).
  - rewrite decide_False by done. by rewrite app_nil_r.
Qed.


(** *** The store's sums after one more entry *)













Lemma record_entry_run (s : Session) (t : Transaction) (f : Flash) (r : Response) :
  pending s = [] ->
  (session_add (OTransaction t) ;;; commit ;;; flash f ;;; ret r)%session s
  = (Val r,
     let db' := with_transaction (work s)
                  (mkTransaction (next_id (map t_id (transactions (work s))))
                     (t_item_id t) (t_ttype t) (t_qty t) (t_location_id t)
                     (t_donor_id t) (t_beneficiary_id t) (t_notes t)) in
     mkSession db' db' [] (flashes s ++ [f])).
Proof.
  destruct s as [c w p fl]. cbn. intros ->.
  unfold session_add, commit, flush, flash, ret, bind. reflexivity.
Qed.

Lemma distribute_records_run (db : DB) (form : gmap string string) i q loc stock :
  form_reads form i q loc ->
  stock_map_get (stock_map (get_stock_query db)) i = Some stock ->
  q <= stock ->
  let bs := after_beneficiary db (form_beneficiary_name form) (form_parish form) in
  distribute POST form (fresh_session db)
  = (Val (Redirect "dashboard" None),
     mkSession (with_transaction (work bs.2) (distribute_entry db form i q loc))
               (with_transaction (work bs.2) (distribute_entry db form i q loc))
               [] [FlashDistribution]).
Proof.
  intros Hr Hs Hle bs. rewrite (distribute_post _ _ _ _ _ Hr), Hs.
  rewrite bool_decide_eq_false_2 by lia. fold bs.
  destruct (after_beneficiary_inv db (form_beneficiary_name form) (form_parish form))
    as (Hc & Hp & Hf & Hit & Htx & _). fold bs in Hc, Hp, Hf, Hit, Htx.
  rewrite record_entry_run by done. cbn zeta.
  cbn [t_item_id t_ttype t_qty t_location_id t_donor_id t_beneficiary_id t_notes].
  unfold distribute_entry. fold bs. by rewrite Htx, Hf.
Qed.





(** ** The donor of an intake *)

Lemma find_is_Some {A} (f : A -> bool) (l : list A) (x : A) :
  x ∈ l -> f x = true -> exists y, List.find f l = Some y.
Proof.
  intros Hin Hf. destruct (List.find f l) as [y|] eqn:E; [by exists y|].
  apply list_elem_of_In in Hin. pose proof (find_none _ _ E x Hin). congruence.
Qed.





(** ** [item_edit] *)


Lemma find_by_id_Some (its : list Item) (item_id : Z) (it : Item) :
  List.find (fun it => bool_decide (i_id it = item_id)) its = Some it ->
  it ∈ its /\ i_id it = item_id.
Proof.
  intros [Hin Hid]%find_some. apply bool_decide_eq_true in Hid.
  by rewrite list_elem_of_In.
Qed.




(** Every path of [item_edit] leaves the committed tables as they were or
    as one UPDATE of the row with the requested key made them. *)
Lemma item_edit_committed_of (db : DB) (method : Method) (item_id : Z)
    (form : gmap string string) (out : result EditReply * Session) :
  item_edit method item_id form (fresh_session db) = out ->
  committed out.2 = db
  \/ exists it, i_id it = item_id /\ update_item it db = Val (committed out.2).
Proof.
  unfold item_edit. unfold bind at 1.
  rewrite query_no_pending by done. cbv beta iota. cbn [work fresh_session].
  destruct (List.find _ (items db)) as [item|] eqn:Hfind; [|by intros <-; left].
  apply find_by_id_Some in Hfind as [_ Hid].
  destruct method; [by intros <-; left|].
  unfold bind at 1, lift at 1.
  destruct (form_item form "name") as [raw|e]; [|by intros <-; left].
  unfold bind at 1, lift at 1.
  destruct (form_min_qty form) as [m|e]; [|by intros <-; left].
  unfold commit_update, flush, ret, bind. cbn.
  destruct (update_item _ db) as [db'|e] eqn:E; [|by intros <-; left].
  intros <-. right. eexists. split; [|exact E]. exact Hid.
Qed.

Lemma item_edit_committed (db : DB) (method : Method) (item_id : Z)
    (form : gmap string string) :
  committed (item_edit method item_id form (fresh_session db)).2 = db
  \/ exists it, i_id it = item_id
                /\ update_item it db
                   = Val (committed (item_edit method item_id form (fresh_session db)).2).
Proof. by apply (item_edit_committed_of db method item_id form). Qed.

Lemma replace_item_ids (it : Item) (its : list Item) :
  map i_id (replace_item it its) = map i_id its.
Proof.
  unfold replace_item. rewrite map_map. apply map_ext. intros it'.
  by case_bool_decide.
Qed.

Lemma update_item_frame (it : Item) (db db' : DB) :
  update_item it db = Val db' ->
  map i_id (items db') = map i_id (items db)
  /\ donors db' = donors db /\ beneficiaries db' = beneficiaries db
  /\ transactions db' = transactions db.
Proof.
  unfold update_item. destruct (sku_taken_by_other _ _); [done|].
  intros [= <-]. cbn. by rewrite replace_item_ids.
Qed.

Lemma get_stock_query_stocks (db : DB) :
  (get_stock_query db).*2
  = map (fun k => stock_of_id k (transactions db)) (map i_id (items db)).
Proof.
  rewrite get_stock_query_stock_of_id. rewrite map_map.
  unfold fmap, list_fmap. rewrite map_map. done.
Qed.

(** Whatever the request, an edit changes no key, no donor, no beneficiary,
    no ledger entry and no balance: the stock column of the stock query is
    the same before and after. *)
Theorem item_edit_keeps_ledger_and_balances (db : DB) (method : Method) (item_id : Z)
    (form : gmap string string) :
  let db' := committed (item_edit method item_id form (fresh_session db)).2 in
  map i_id (items db') = map i_id (items db)
  /\ donors db' = donors db
  /\ beneficiaries db' = beneficiaries db
  /\ transactions db' = transactions db
  /\ (get_stock_query db').*2 = (get_stock_query db).*2.
Proof.
  intros db'.
  assert (H : map i_id (items db') = map i_id (items db)
              /\ donors db' = donors db /\ beneficiaries db' = beneficiaries db
              /\ transactions db' = transactions db).
  { destruct (item_edit_committed db method item_id form) as [Heq|(it & _ & Hup)].
    - unfold db'. by rewrite Heq.
    - by apply (update_item_frame it). }
  destruct H as (Hi & Hd & Hb & Ht). repeat split; try done.
  by rewrite !get_stock_query_stocks, Hi, Ht.
Qed.





Lemma replace_item_absent (it : Item) (its : list Item) :
  i_id it ∉ i_id <$> its -> replace_item it its = its.
Proof.
  intros Hnin. unfold replace_item. rewrite <- (map_id its) at 2.
  apply map_ext_in. intros it' Hin%list_elem_of_In.
  rewrite bool_decide_eq_false_2; [done|]. intros Heq. apply Hnin. rewrite <- Heq.
  by apply list_elem_of_fmap_2.
Qed.

Lemma sku_free_of_others (it : Item) (its : list Item) (sku : string) (it' : Item) :
  sku_taken_by_other it its = false ->
  i_sku it = Some sku -> it' ∈ its -> i_sku it' = Some sku -> i_id it' = i_id it.
Proof.
  unfold sku_taken_by_other. intros Hfree Hsku Hin Hsku'. rewrite Hsku in Hfree.
  destruct (decide (i_id it' = i_id it)) as [|Hne]; [done|].
  assert (existsb (fun it' => bool_decide (i_sku it' = Some sku)
                              && negb (bool_decide (i_id it' = i_id it))) its = true);
    [|congruence].
  apply existsb_exists. exists it'. split; [by apply list_elem_of_In|].
  by rewrite bool_decide_eq_true_2, bool_decide_eq_false_2.
Qed.

Lemma replace_item_skus (it : Item) (its : list Item) :
  NoDup (map i_id its) -> NoDup (omap i_sku its) ->
  sku_taken_by_other it its = false ->
  NoDup (omap i_sku (replace_item it its)).
Proof.
  intros Hids Hskus Hfree. induction its as [|x l IH]; [constructor|].
  cbn in Hids. apply NoDup_cons in Hids as [Hx Hl].
  assert (Hfree' : sku_taken_by_other it l = false).
  { unfold sku_taken_by_other in *. destruct (i_sku it); [|done].
    cbn in Hfree. by apply orb_false_iff in Hfree as [_ ?]. }
  assert (Hskus' : NoDup (omap i_sku l)).
  { cbn in Hskus. destruct (i_sku x); [by apply NoDup_cons in Hskus as [_ ?]|done]. }
  cbn [replace_item map]. case_bool_decide as Hid.
  - fold (replace_item it l). rewrite replace_item_absent by (by rewrite <- Hid).
    cbn. destruct (i_sku it) as [sku|] eqn:Hsku; [|done].
    apply NoDup_cons. split; [|done].
    intros (it' & Hin & Hsku')%list_elem_of_omap.
    assert (i_id it' = i_id it)
      by (eapply (sku_free_of_others it (x :: l)); [done|done|by right|done]).
    apply Hx. rewrite Hid. replace (i_id it) with (i_id it') by done.
    by apply list_elem_of_fmap_2.
  - fold (replace_item it l). cbn. destruct (i_sku x) as [sku|] eqn:Hsku; [|by apply IH].
    apply NoDup_cons. split; [|by apply IH].
    intros (it' & Hin & Hsku')%list_elem_of_omap.
    apply list_elem_of_In, in_map_iff in Hin as (y & Hy & Hyin).
    apply list_elem_of_In in Hyin. case_bool_decide as Hyid.
    + subst it'. apply Hid.
      eapply (sku_free_of_others it (x :: l)); [done|done|by left|done].
    + subst it'. cbn in Hskus. rewrite Hsku in Hskus.
      apply NoDup_cons in Hskus as [Hnin _]. apply Hnin.
      apply list_elem_of_omap. by exists y.
Qed.

Lemma update_item_keys (it : Item) (db db' : DB) :
  keys_unique db -> update_item it db = Val db' -> keys_unique db'.
Proof.
  intros (Hi & Hd & Hb & Ht & Hs). unfold update_item.
  destruct (sku_taken_by_other _ _) eqn:E; [done|]. intros [= <-].
  unfold keys_unique. cbn [items donors beneficiaries transactions].
  rewrite replace_item_ids. repeat split; try done. by apply replace_item_skus.
Qed.

(** An edit keeps the constraints of the schema: with pairwise distinct
    keys and skus before the request, the committed tables have pairwise
    distinct keys and skus after it, whatever the request. *)
Theorem item_edit_keeps_keys_unique (db : DB) (method : Method) (item_id : Z)
    (form : gmap string string) :
  keys_unique db ->
  keys_unique (committed (item_edit method item_id form (fresh_session db)).2).
Proof.
  intros Hk. destruct (item_edit_committed db method item_id form) as [->|(it & _ & Hup)];
    [done|]. by apply (update_item_keys it db).
Qed.

Lemma item_edit_keeps_keys_unique_witness :
  keys_unique (committed (item_edit POST 1 rename_form (fresh_session db_rice)).2).
Proof.
  apply item_edit_keeps_keys_unique.
  repeat split; cbn; repeat constructor; by intros ?%elem_of_nil.
Defined.

(** ** [normalize_name] *)

Lemma lower_char_idem (c : ascii) : Py.lower_char (Py.lower_char c) = Py.lower_char c.
Proof. destruct c as [[] [] [] [] [] [] [] []]; reflexivity. Qed.

Lemma split_lower (l cur : list ascii) :
  Py.split_chars (map Py.lower_char l) (map Py.lower_char cur)
  = map (map Py.lower_char) (Py.split_chars l cur).
Proof.
  revert cur. induction l as [|c l IH]; intros cur; cbn [map Py.split_chars].
  - destruct cur as [|c' cur']; [done|]. cbn [map].
    rewrite (map_rev Py.lower_char (c' :: cur')). reflexivity.
  - rewrite isspace_lower_char. destruct (Py.isspace c).
    + destruct cur as [|c' cur']; [apply (IH [])|].
      cbn [map]. rewrite (map_rev Py.lower_char (c' :: cur')).
      f_equal. apply (IH []).
    + apply (IH (c :: cur)).
Qed.

Lemma join_lower (ws : list (list ascii)) :
  Py.join_chars [" "%char] (map (map Py.lower_char) ws)
  = map Py.lower_char (Py.join_chars [" "%char] ws).
Proof.
  induction ws as [|w ws IH]; [done|]. destruct ws as [|w' ws']; [done|].
  change (Py.join_chars [" "%char] (w :: w' :: ws'))
    with (w ++ " "%char :: Py.join_chars [" "%char] (w' :: ws'))%list.
  rewrite map_app. cbn [map]. rewrite <- IH. reflexivity.
Qed.

Lemma squeeze_lower (l : list ascii) :
  squeeze_chars (map Py.lower_char l) = map Py.lower_char (squeeze_chars l).
Proof.
  unfold squeeze_chars. pose proof (split_lower l []) as H. cbn [map] in H.
  by rewrite H, join_lower.
Qed.

Lemma squeeze_idem (l : list ascii) : squeeze_chars (squeeze_chars l) = squeeze_chars l.
Proof.
  unfold squeeze_chars. rewrite split_join; [done|]. by apply split_words.
Qed.

Lemma squeeze_strip (l : list ascii) : squeeze_chars (Py.strip_chars l) = squeeze_chars l.
Proof. unfold squeeze_chars. by rewrite split_strip. Qed.

Lemma normalize_chars_squeeze (l : list ascii) :
  normalize_chars l = map Py.lower_char (squeeze_chars l).
Proof.
  unfold normalize_chars. fold (squeeze_chars (map Py.lower_char (Py.strip_chars l))).
  by rewrite squeeze_lower, squeeze_strip.
Qed.

Lemma map_lower_idem (l : list ascii) :
  map Py.lower_char (map Py.lower_char l) = map Py.lower_char l.
Proof. rewrite map_map. apply map_ext. apply lower_char_idem. Qed.

Lemma lower_of_sql_lower_char (c : ascii) :
  Py.lower_char (sql_lower_char c) = Py.lower_char c.
Proof. destruct c as [[] [] [] [] [] [] [] []]; reflexivity. Qed.

(** A stored name whose form lower-cased by the query is a normalised name
    has that normalised name. *)
Lemma normalize_of_lowered (x p : string) :
  sql_lower x = normalize_name p -> normalize_name x = normalize_name p.
Proof.
  unfold sql_lower. rewrite !normalize_name_chars.
  intros H%(f_equal list_ascii_of_string).
  rewrite !list_ascii_of_string_of_list_ascii in H. f_equal.
  assert (Hl : map Py.lower_char (list_ascii_of_string x)
               = normalize_chars (list_ascii_of_string p)).
  { rewrite <- (map_ext _ _ lower_of_sql_lower_char), <- map_map, H.
    by rewrite normalize_chars_squeeze, map_lower_idem. }
  unfold normalize_chars at 1. rewrite lower_strip, Hl, split_strip.
  unfold normalize_chars. rewrite split_join; [done|]. by apply split_words.
Qed.

(** [normalize_name] gives a canonical form: normalising twice is
    normalising once, and neither the case of the letters nor whitespace
    around the text changes the result. *)
Theorem normalize_name_canonical (s : string) :
  normalize_name (normalize_name s) = normalize_name s
  /\ normalize_name (Py.lower s) = normalize_name s
  /\ normalize_name (Py.strip s) = normalize_name s.
Proof.
  rewrite !normalize_name_chars. unfold Py.lower, Py.strip.
  rewrite !list_ascii_of_string_of_list_ascii. rewrite !normalize_chars_squeeze.
  repeat split; f_equal.
  - by rewrite squeeze_lower, squeeze_idem, map_lower_idem.
  - by rewrite squeeze_lower, map_lower_idem.
  - by rewrite squeeze_strip.
Qed.

Lemma whitespace_normal_chars (s : string) :
  whitespace_normal s -> squeeze_chars (list_ascii_of_string s) = list_ascii_of_string s.
Proof.
  unfold whitespace_normal, Py.join, Py.split. intros H%(f_equal list_ascii_of_string).
  rewrite list_ascii_of_string_of_list_ascii in H. rewrite <- H at 2.
  unfold squeeze_chars. f_equal. rewrite map_map.
  rewrite <- (map_id (Py.split_chars _ _)) at 1. apply map_ext.
  intros w. by rewrite list_ascii_of_string_of_list_ascii.
Qed.

(** On a name in plain form the query's [lower] and [normalize_name]
    agree. *)
Lemma lower_of_plain_name (s : string) :
  plain_name s -> sql_lower s = normalize_name s.
Proof.
  intros [Hs Hf]. rewrite Hf, normalize_name_chars, normalize_chars_squeeze.
  by rewrite whitespace_normal_chars.
Qed.

(** ** The guard on names in plain form *)

(** In a catalogue whose stored names are in plain form (no whitespace at
    the ends, single spaces between words, no capital letter outside A-Z,
    which the store's [lower()] would leave as it is) the guard is exact:
    a creation is turned down, with the key of an existing item, if and
    only if some item has the normalised name, the category and the unit
    of the proposal. *)
Theorem item_new_guard_exact (db : DB) (form : gmap string string) raw m :
  item_form_reads form raw m ->
  Forall (fun it => plain_name (i_name it)) (items db) ->
  let out := item_new POST form (fresh_session db) in
  (exists e, e ∈ items db
             /\ normalize_name (i_name e) = normalize_name (Py.strip raw)
             /\ i_category e = form_category form /\ i_unit e = form_unit form)
  <-> (exists e', e' ∈ items db
                  /\ out = (Val (Redirect "item_edit" (Some (i_id e'))),
                            mkSession db db [] [FlashDuplicate e'])).
Proof.
  intros Hr Hnames out. unfold out. rewrite (item_new_post _ _ _ _ Hr).
  rewrite Forall_forall in Hnames. split.
  - intros (e & Hin & Hn & Hc & Hu).
    destruct (find_duplicate _ _ _ db) as [e'|] eqn:E.
    + exists e'. by apply find_duplicate_Some in E as (Hin' & _).
    + exfalso. rewrite find_duplicate_None in E. apply (E e Hin).
      split; [|done]. rewrite lower_of_plain_name by (by apply Hnames). done.
  - intros (e' & Hin & Hout).
    destruct (find_duplicate _ _ _ db) as [e|] eqn:E.
    + apply find_duplicate_Some in E as (Hin' & Hl & Hc & Hu).
      exists e. repeat split; try done. by apply normalize_of_lowered.
    + by destruct (sku_taken _ _).
Qed.

Lemma item_new_guard_exact_witness :
  (exists e, e ∈ items db_rice
             /\ normalize_name (i_name e) = normalize_name (Py.strip "  RICE ")
             /\ i_category e = form_category (rice_form "  RICE " "kg")
             /\ i_unit e = form_unit (rice_form "  RICE " "kg"))
  <-> (exists e', e' ∈ items db_rice
                  /\ item_new POST (rice_form "  RICE " "kg") (fresh_session db_rice)
                     = (Val (Redirect "item_edit" (Some (i_id e'))),
                        mkSession db_rice db_rice [] [FlashDuplicate e'])).
Proof.
  apply (item_new_guard_exact db_rice (rice_form "  RICE " "kg") "  RICE " 0).
  - split; reflexivity.
  - repeat constructor.
Defined.

Lemma find_snoc {A} (f : A -> bool) (l : list A) (x : A) :
  List.find f l = None -> f x = true -> List.find f (l ++ [x]) = Some x.
Proof.
  induction l as [|y l IH]; cbn; intros Hl Hx; [by rewrite Hx|].
  destruct (f y); [done|]. by apply IH.
Qed.

(** Creating an item and looking it up again: when a creation with a
    name that is in plain form once stripped (single spaces between words,
    no capital letter outside A-Z) has gone through, submitting the same
    form once more is turned down, and the key surfaced is the one the
    first request gave the item. *)
Theorem item_new_twice_rejected (db : DB) (form : gmap string string) raw m :
  item_form_reads form raw m ->
  plain_name (Py.strip raw) ->
  (item_new POST form (fresh_session db)).1 = Val (Redirect "items" None) ->
  let db' := committed (item_new POST form (fresh_session db)).2 in
  items db' = (items db ++ [proposed_item db form raw m])%list
  /\ item_new POST form (fresh_session db')
     = (Val (Redirect "item_edit" (Some (next_id (map i_id (items db))))),
        mkSession db' db' [] [FlashDuplicate (proposed_item db form raw m)]).
Proof.
  intros Hr Hws. rewrite (item_new_post _ _ _ _ Hr).
  destruct (find_duplicate _ _ _ db) as [e|] eqn:E; [done|].
  destruct (sku_taken _ _); [done|]. intros _. cbn [snd committed].
  split; [done|]. rewrite (item_new_post _ _ _ _ Hr).
  unfold find_duplicate, with_item. cbn [items].
  rewrite (find_snoc _ _ (proposed_item db form raw m) E); [done|].
  unfold guard_match, proposed_item. cbn [i_name i_category i_unit].
  rewrite lower_of_plain_name by done.
  by rewrite !bool_decide_eq_true_2.
Qed.

Lemma item_new_twice_rejected_witness :
  item_new POST (rice_form "Rice" "L")
    (fresh_session (committed (item_new POST (rice_form "Rice" "L")
                                 (fresh_session db_rice)).2))
  = (Val (Redirect "item_edit" (Some 2)),
     mkSession
       (committed (item_new POST (rice_form "Rice" "L") (fresh_session db_rice)).2)
       (committed (item_new POST (rice_form "Rice" "L") (fresh_session db_rice)).2)
       [] [FlashDuplicate (proposed_item db_rice (rice_form "Rice" "L") "Rice" 0)]).
Proof.
  apply (proj2 (item_new_twice_rejected db_rice (rice_form "Rice" "L") "Rice" 0
                  ltac:(split; reflexivity) ltac:(split; reflexivity) eq_refl)).
Defined.

(** ** The dashboard's figures *)

Lemma insert_by_stock_Forall (P : Item * Z -> Prop) x l :
  P x -> Forall P l -> Forall P (insert_by_stock x l).
Proof.
  intros Hx Hl. induction Hl as [|y l Hy Hl IH]; cbn; [by repeat constructor|].
  case_bool_decide; repeat constructor; done.
Qed.

Lemma insert_by_stock_sorted x l :
  StronglySorted (fun a b : Item * Z => a.2 <= b.2) l ->
  StronglySorted (fun a b : Item * Z => a.2 <= b.2) (insert_by_stock x l).
Proof.
  induction 1 as [|y l Hs IH Hy]; cbn; [by repeat constructor|].
  case_bool_decide as Hle.
  - constructor; [by constructor|]. constructor; [done|].
    eapply Forall_impl; [exact Hy|]. cbn. intros; lia.
  - constructor; [done|]. apply insert_by_stock_Forall; [lia|done].
Qed.

Lemma insert_by_stock_stable (v : Z) x l :
  StronglySorted (fun a b : Item * Z => a.2 <= b.2) l ->
  rows_with_stock v (insert_by_stock x l) = rows_with_stock v (x :: l).
Proof.
  unfold rows_with_stock. induction 1 as [|y l Hs IH Hy]; [done|]. cbn.
  case_bool_decide as Hle; [done|].
  rewrite (filter_cons _ y), IH, !filter_cons.
  destruct (decide (x.2 = v)), (decide (y.2 = v)); try done. lia.
Qed.

Lemma sort_by_stock_sorted l :
  StronglySorted (fun a b : Item * Z => a.2 <= b.2) (sort_by_stock l).
Proof.
  induction l as [|x l IH]; cbn; [constructor|]. by apply insert_by_stock_sorted.
Qed.

Lemma sort_by_stock_stable (v : Z) l :
  rows_with_stock v (sort_by_stock l) = rows_with_stock v l.
Proof.
  induction l as [|x l IH]; [done|]. cbn [sort_by_stock foldr].
  fold (sort_by_stock l). rewrite insert_by_stock_stable by apply sort_by_stock_sorted.
  unfold rows_with_stock in *. by rewrite !filter_cons, IH.
Qed.

(** The low-stock list comes most deficient first: every row's stock is at
    most the stock of every row after it, and rows with equal stock keep
    the order the stock query gave them. *)
Theorem dashboard_low_sorted_stable (db : DB) :
  StronglySorted (fun a b : Item * Z => a.2 <= b.2) (dashboard_low db)
  /\ forall v, rows_with_stock v (dashboard_low db)
               = rows_with_stock v (low_rows (get_stock_query db)).
Proof.
  unfold dashboard_low. rewrite dashboard_fresh. cbn [fst low_stock].
  split; [apply sort_by_stock_sorted|]. intros v. apply sort_by_stock_stable.
Qed.







(** ** [items] and [report_stock] *)

Section SortBy.

Context {A : Type} (leb : A -> A -> bool).
Hypothesis leb_total : forall a b, leb a b = true \/ leb b a = true.

Lemma insert_by_perm (x : A) (l : list A) : insert_by leb x l ≡ₚ x :: l.
Proof.
  induction l as [|y l IH]; [done|]. cbn. destruct (leb x y); [done|].
  rewrite IH. apply Permutation_swap.
Qed.

Lemma sort_by_perm (l : list A) : sort_by leb l ≡ₚ l.
Proof.
  induction l as [|x l IH]; [done|]. cbn. by rewrite insert_by_perm, IH.
Qed.

Lemma insert_by_sorted (x : A) (l : list A) :
  Sorted (fun a b => leb a b = true) l ->
  Sorted (fun a b => leb a b = true) (insert_by leb x l).
Proof using leb_total.
  induction 1 as [|y l Hs IH Hy]; cbn; [by repeat constructor|].
  destruct (leb x y) eqn:E.
  - constructor; [by constructor|]. by constructor.
  - constructor; [done|].
    assert (Hyx : leb y x = true) by (destruct (leb_total x y); congruence).
    destruct l as [|z l]; cbn; [by constructor|].
    destruct (leb x z); constructor; [done|]. by inversion Hy.
Qed.

Lemma sort_by_sorted (l : list A) : Sorted (fun a b => leb a b = true) (sort_by leb l).
Proof using leb_total.
  induction l as [|x l IH]; cbn; [constructor|]. by apply insert_by_sorted.
Qed.

End SortBy.

Lemma name_leb_total (a b : Item * option Z) :
  name_leb a b = true \/ name_leb b a = true.
Proof. apply String.leb_total. Qed.

Lemma blank_arg (args : gmap string string) (k : string) :
  Py.strip (args_get args k) = EmptyString ->
  Py.truthy_str (Py.strip (args_get args k)) = false.
Proof. by intros ->. Qed.

(** Without a search text and a category (absent, empty or blank), [items]
    lists every row of the stock query exactly once, ordered by name, and
    changes nothing. *)
Theorem items_route_lists_all (db : DB) (args : gmap string string) :
  Py.strip (args_get args "q") = EmptyString ->
  Py.strip (args_get args "category") = EmptyString ->
  exists rows,
    items_route args (fresh_session db) = (Val rows, fresh_session db)
    /\ rows ≡ₚ get_stock_query db
    /\ Sorted (fun a b => String.leb (i_name a.1) (i_name b.1) = true) rows.
Proof.
  intros Hq Hc. unfold items_route. rewrite query_no_pending by done.
  rewrite Hq, Hc. cbn [Py.truthy_str work fresh_session].
  eexists. split; [reflexivity|]. split.
  - apply sort_by_perm.
  - apply (sort_by_sorted name_leb name_leb_total).
Qed.

Lemma items_route_lists_all_witness :
  (items_route (args_of [("q", "   ")]) (fresh_session ledger_ex)).1
  = Val [(rice, Some 22); (mkItem 2 None "Soap" None "pcs" 0 None, None)].
Proof.
  destruct (items_route_lists_all ledger_ex (args_of [("q", "   ")]) eq_refl eq_refl)
    as (rows & Heq & _).
  rewrite Heq. cbn [fst]. f_equal.
  assert (H : (Val rows, fresh_session ledger_ex)
              = items_route (args_of [("q", "   ")]) (fresh_session ledger_ex))
    by (by rewrite Heq).
  vm_compute in H. by injection H as ->.
Defined.

(** *** [LIKE] *)

Lemma like_percent_unfold (c : ascii) (p s : list ascii) :
  N_of_ascii c = 37%N ->
  like_chars (c :: p) s
  = like_chars p s || match s with [] => false | _ :: s' => like_chars (c :: p) s' end.
Proof. intros Hc. cbn. rewrite Hc. by destruct s. Qed.

Lemma like_percent_iff (c : ascii) (p s : list ascii) :
  N_of_ascii c = 37%N ->
  like_chars (c :: p) s = true
  <-> exists pre post, s = (pre ++ post)%list /\ like_chars p post = true.
Proof.
  intros Hc. induction s as [|d s IH]; rewrite like_percent_unfold by done.
  - rewrite orb_false_r. split.
    + intros H. by exists [], [].
    + intros (pre & post & Hs & H). symmetry in Hs.
      apply app_eq_nil in Hs as [_ ->]. done.
  - rewrite orb_true_iff, IH. split.
    + intros [H|(pre & post & -> & H)].
      * by exists [], (d :: s).
      * by exists (d :: pre), post.
    + intros (pre & post & Hs & H). destruct pre as [|d' pre]; cbn in Hs.
      * left. by subst post.
      * injection Hs as -> ->. right. by exists pre, post.
Qed.

Lemma like_literal_iff (q p s : list ascii) :
  Forall (fun c => N_of_ascii c <> 37%N /\ N_of_ascii c <> 95%N) q ->
  like_chars (q ++ p) s = true
  <-> exists mid rest, s = (mid ++ rest)%list
        /\ map sql_lower_char mid = map sql_lower_char q
        /\ like_chars p rest = true.
Proof.
  intros Hq. revert s. induction Hq as [|c q [H37 H95] _ IH]; intros s.
  - cbn [app]. split.
    + intros H. by exists [], s.
    + intros (mid & rest & -> & Hm & H). by destruct mid.
  - cbn [app like_chars].
    apply N.eqb_neq in H37, H95. rewrite H37, H95.
    destruct s as [|d s].
    + split; [done|]. intros (mid & rest & Hs & Hm & _). by destruct mid.
    + rewrite andb_true_iff, bool_decide_eq_true, IH. split.
      * intros (Hcd & mid & rest & -> & Hm & H).
        exists (d :: mid), rest. cbn. by rewrite Hm, Hcd.
      * intros (mid & rest & Hs & Hm & H). destruct mid as [|d' mid]; [done|].
        cbn in Hs, Hm. injection Hs as -> ->. injection Hm as Hd Hm.
        split; [done|]. by exists mid, rest.
Qed.

Lemma like_contains (q s : list ascii) :
  Forall (fun c => N_of_ascii c <> 37%N /\ N_of_ascii c <> 95%N) q ->
  like_chars ("%"%char :: q ++ ["%"%char]) s = true
  <-> exists pre mid post, s = (pre ++ mid ++ post)%list
        /\ map sql_lower_char mid = map sql_lower_char q.
Proof.
  intros Hq. rewrite like_percent_iff by done. split.
  - intros (pre & rest & -> & (mid & post & -> & Hm & _)%like_literal_iff); [|done].
    by exists pre, mid, post.
  - intros (pre & mid & post & -> & Hm). exists pre, (mid ++ post)%list.
    split; [done|]. apply like_literal_iff; [done|]. exists mid, post.
    repeat split; [done|]. apply like_percent_iff; [done|]. by exists post, [];
      rewrite app_nil_r.
Qed.

Lemma list_ascii_of_string_app (a b : string) :
  list_ascii_of_string (a ++ b)
  = (list_ascii_of_string a ++ list_ascii_of_string b)%list.
Proof.
  induction a as [|c a IH]; [done|].
  change (c :: list_ascii_of_string (a ++ b)%string
          = c :: (list_ascii_of_string a ++ list_ascii_of_string b)%list).
  by rewrite IH.
Qed.

Lemma string_of_list_ascii_app (a b : list ascii) :
  string_of_list_ascii (a ++ b)
  = (string_of_list_ascii a ++ string_of_list_ascii b)%string.
Proof.
  induction a as [|c a IH]; [done|].
  change (String c (string_of_list_ascii (a ++ b))
          = String c (string_of_list_ascii a ++ string_of_list_ascii b)%string).
  by rewrite IH.
Qed.

Lemma lower_char_wildcard (c : ascii) :
  (N_of_ascii c <> 37 /\ N_of_ascii c <> 95)%N ->
  (N_of_ascii (Py.lower_char c) <> 37 /\ N_of_ascii (Py.lower_char c) <> 95)%N.
Proof.
  destruct c as [[] [] [] [] [] [] [] []]; vm_compute; intros [H1 H2]; split; congruence.
Qed.

Lemma sql_lower_char_idem (c : ascii) :
  sql_lower_char (sql_lower_char c) = sql_lower_char c.
Proof. destruct c as [[] [] [] [] [] [] [] []]; reflexivity. Qed.

Lemma sql_lower_of_lower_char (c : ascii) :
  sql_lower_char (Py.lower_char c) = Py.lower_char c.
Proof. destruct c as [[] [] [] [] [] [] [] []]; reflexivity. Qed.

Lemma map_sql_lower_idem (l : list ascii) :
  map sql_lower_char (map sql_lower_char l) = map sql_lower_char l.
Proof. rewrite map_map. apply map_ext. apply sql_lower_char_idem. Qed.

Lemma map_sql_lower_of_lower (l : list ascii) :
  map sql_lower_char (map Py.lower_char l) = map Py.lower_char l.
Proof. rewrite map_map. apply map_ext. apply sql_lower_of_lower_char. Qed.

Lemma map_lower_app_inv (mid : list ascii) (s pre post : list ascii) :
  map sql_lower_char s = (pre ++ mid ++ post)%list -> map sql_lower_char mid = mid.
Proof.
  intros H.
  assert (Hs : map sql_lower_char (pre ++ mid ++ post) = (pre ++ mid ++ post)%list)
    by (by rewrite <- H, map_sql_lower_idem).
  rewrite !map_app in Hs.
  apply app_inj_1 in Hs as [_ Hs]; [|by rewrite length_map].
  apply app_inj_1 in Hs as [Hs _]; [done|by rewrite length_map].
Qed.

(** The [LIKE] of the search, on a text without [%] and [_]: the text,
    lower-cased by Python, occurs in the column, lower-cased by the
    store. *)
Lemma like_search_iff (q s : string) :
  wildcard_free q ->
  like_chars (list_ascii_of_string ("%" ++ Py.lower q ++ "%"))
             (list_ascii_of_string (sql_lower s)) = true
  <-> occurs_in (Py.lower q) (sql_lower s).
Proof.
  intros Hq. unfold sql_lower, Py.lower, occurs_in.
  rewrite !list_ascii_of_string_app, !list_ascii_of_string_of_list_ascii.
  change (list_ascii_of_string "%") with ["%"%char]. cbn [app].
  rewrite like_contains.
  2:{ unfold wildcard_free in Hq. rewrite Forall_forall in *.
      intros c (c' & -> & Hc')%list_elem_of_fmap. apply lower_char_wildcard. by apply Hq. }
  rewrite map_sql_lower_of_lower. split.
  - intros (pre & mid & post & Hs & Hm).
    pose proof (map_lower_app_inv _ _ _ _ Hs) as Hmid. rewrite Hmid in Hm. subst mid.
    exists (string_of_list_ascii pre), (string_of_list_ascii post).
    by rewrite Hs, !string_of_list_ascii_app.
  - intros (pre & post & Hs). apply (f_equal list_ascii_of_string) in Hs.
    rewrite !list_ascii_of_string_app, !list_ascii_of_string_of_list_ascii in Hs.
    exists (list_ascii_of_string pre), (map Py.lower_char (list_ascii_of_string q)),
      (list_ascii_of_string post).
    split; [done|]. apply map_sql_lower_of_lower.
Qed.

Lemma matches_q_iff (q : string) (it : Item) :
  wildcard_free q ->
  matches_q q it = true
  <-> occurs_in (Py.lower q) (sql_lower (i_name it))
      \/ exists sku, i_sku it = Some sku /\ occurs_in (Py.lower q) (sql_lower sku).
Proof.
  intros Hq. unfold matches_q, sql_like.
  pose proof (like_search_iff q (i_name it) Hq) as Hname.
  destruct (i_sku it) as [sku|]; cbn [fmap option_fmap option_map].
  - pose proof (like_search_iff q sku Hq) as Hsku.
    destruct (like_chars _ (list_ascii_of_string (sql_lower (i_name it)))),
             (like_chars _ (list_ascii_of_string (sql_lower sku))); cbn; split;
      try done; try (intros _; tauto || (right; exists sku; tauto));
      try (left; by apply Hname); try (right; exists sku; split; [done|by apply Hsku]).
    intros [H|(sku' & [= <-] & H)]; [by apply Hname in H|by apply Hsku in H].
  - destruct (like_chars _ _); cbn; split; try done.
    + intros _. left. by apply Hname.
    + intros [H|(sku & [=] & _)]. by apply Hname in H.
Qed.

Lemma matches_category_iff (cat : string) (it : Item) :
  matches_category cat it = true
  <-> exists c, i_category it = Some c /\ sql_lower c = Py.lower cat.
Proof.
  unfold matches_category. destruct (i_category it) as [c|]; cbn.
  - case_bool_decide; split; try done.
    + intros _. by exists c.
    + by intros (c' & [= <-] & ?).
  - split; [done|]. by intros (c & [=] & _).
Qed.

Lemma truthy_str_false (s : string) : Py.truthy_str s = false <-> s = EmptyString.
Proof. by destruct s. Qed.

(** [items] with a search text free of [%] and [_]: a stock row is listed
    exactly when the text, lower-cased by Python, occurs in the item's
    name or in its sku as the store lower-cases them, which folds the
    letters A-Z only (an item without sku is found by its name only), and,
    when a category is given, when the item has a category that, lower-cased
    by the store, equals the given one lower-cased by Python (an item
    without category is never listed under a category).  A stored category
    with a capital letter outside A-Z is therefore listed under no
    category, and no search text matches such a letter of a stored name.
    The rows come ordered by name and carry the stock of the unfiltered
    query. *)
Theorem items_route_search (db : DB) (args : gmap string string) (q cat : string) :
  Py.strip (args_get args "q") = q ->
  Py.strip (args_get args "category") = cat ->
  wildcard_free q ->
  exists rows,
    items_route args (fresh_session db) = (Val rows, fresh_session db)
    /\ Sorted (fun a b => String.leb (i_name a.1) (i_name b.1) = true) rows
    /\ forall row,
         row ∈ rows
         <-> row ∈ get_stock_query db
             /\ (q = EmptyString
                 \/ occurs_in (Py.lower q) (sql_lower (i_name row.1))
                 \/ exists sku, i_sku row.1 = Some sku
                                /\ occurs_in (Py.lower q) (sql_lower sku))
             /\ (cat = EmptyString
                 \/ exists c, i_category row.1 = Some c /\ sql_lower c = Py.lower cat).
Proof.
  intros Hq Hc Hwild. unfold items_route. rewrite query_no_pending by done.
  rewrite Hq, Hc. cbn [work fresh_session].
  eexists. split; [reflexivity|]. split;
    [apply (sort_by_sorted name_leb name_leb_total)|].
  intros row. rewrite sort_by_perm.
  destruct (Py.truthy_str cat) eqn:Ecat, (Py.truthy_str q) eqn:Eq;
    rewrite ?list_elem_of_In, ?filter_In, <- ?list_elem_of_In,
      ?matches_category_iff, ?(matches_q_iff q _ Hwild);
    try apply truthy_str_false in Ecat; try apply truthy_str_false in Eq;
    split; intros H; try tauto.
  all: destruct H as (H1 & H2 & H3).
  all: repeat match goal with
              | H : _ = EmptyString \/ _ |- _ => destruct H as [->|H]
              end; try done; tauto.
Qed.

Lemma items_route_search_witness :
  exists rows,
    items_route (args_of [("q", " s-9 ")]) (fresh_session db_two)
    = (Val rows, fresh_session db_two)
    /\ ((soap, None) ∈ rows).
Proof.
  destruct (items_route_search db_two (args_of [("q", " s-9 ")]) "s-9" EmptyString
              eq_refl eq_refl) as (rows & Heq & _ & Hrows).
  - repeat constructor; discriminate.
  - exists rows. split; [done|]. apply Hrows. split; [right; left|].
    split; [|by left]. right. right. exists "S-9". split; [done|].
    by exists EmptyString, EmptyString.
Defined.

Lemma like_only_percent (p s : list ascii) :
  p <> [] -> Forall (fun c => N_of_ascii c = 37%N) p -> like_chars p s = true.
Proof.
  intros Hne Hp. induction Hp as [|c p Hc Hp IH]; [done|].
  apply like_percent_iff; [done|]. destruct p as [|c' p'].
  - exists s, []. by rewrite app_nil_r.
  - exists [], s. split; [done|]. by apply IH.
Qed.

Lemma lower_char_percent (c : ascii) :
  N_of_ascii c = 37%N -> N_of_ascii (Py.lower_char c) = 37%N.
Proof. destruct c as [[] [] [] [] [] [] [] []]; vm_compute; congruence. Qed.

(** The search text is put into the [LIKE] pattern as it is: a text made
    of [%] only is a pattern that every name matches, so the search lists
    every row of the stock query, items without sku included. *)
Theorem items_route_percent_lists_all (db : DB) (args : gmap string string) (q : string) :
  Py.strip (args_get args "q") = q ->
  q <> EmptyString ->
  only_percent q ->
  Py.strip (args_get args "category") = EmptyString ->
  exists rows,
    items_route args (fresh_session db) = (Val rows, fresh_session db)
    /\ rows ≡ₚ get_stock_query db.
Proof.
  intros Hq Hne Hp Hc. unfold items_route. rewrite query_no_pending by done.
  rewrite Hq, Hc. cbn [work fresh_session Py.truthy_str].
  destruct (Py.truthy_str q) eqn:E; [|by apply truthy_str_false in E].
  eexists. split; [reflexivity|]. rewrite sort_by_perm.
  assert (Hall : forall it, matches_q q it = true).
  { intros it. unfold matches_q, sql_like.
    rewrite like_only_percent; [by destruct (sql_lower <$> i_sku it) as [?|]; cbn;
                                 try destruct (like_chars _ _)|..].
    - rewrite list_ascii_of_string_app. by destruct (list_ascii_of_string "%") eqn:E1.
    - rewrite !list_ascii_of_string_app. unfold Py.lower.
      rewrite list_ascii_of_string_of_list_ascii.
      apply Forall_app; split; [by repeat constructor|].
      apply Forall_app; split; [|by repeat constructor].
      apply Forall_forall. intros c (c' & -> & Hc')%list_elem_of_fmap.
      apply lower_char_percent. unfold only_percent in Hp.
      rewrite Forall_forall in Hp. by apply Hp. }
  induction (get_stock_query db) as [|row rows IH]; [done|].
  cbn. by rewrite Hall, IH.
Qed.

Lemma items_route_percent_lists_all_witness :
  exists rows,
    items_route (args_of [("q", "%")]) (fresh_session db_two)
    = (Val rows, fresh_session db_two)
    /\ rows ≡ₚ get_stock_query db_two.
Proof.
  apply (items_route_percent_lists_all db_two (args_of [("q", "%")]) "%").
  - reflexivity.
  - discriminate.
  - by repeat constructor.
  - reflexivity.
Defined.

Lemma category_compare_antisym (a b : option string) :
  category_compare a b = CompOpp (category_compare b a).
Proof. destruct a, b; cbn; try done. apply String.compare_antisym. Qed.

Lemma report_leb_total (a b : Item * option Z) :
  report_leb a b = true \/ report_leb b a = true.
Proof.
  unfold report_leb. rewrite (category_compare_antisym (i_category b.1)).
  destruct (category_compare (i_category a.1) (i_category b.1)); cbn; auto.
  apply String.leb_total.
Qed.

Lemma Sorted_weaken {A} (R R' : A -> A -> Prop) (l : list A) :
  (forall a b, R a b -> R' a b) -> Sorted R l -> Sorted R' l.
Proof.
  intros HR. induction 1 as [|x l Hs IH Hx]; constructor; [done|].
  destruct Hx; constructor. by apply HR.
Qed.

(** The stock report lists every row of the stock query exactly once and
    changes nothing; the rows come by category, items without category
    first, and by name inside a category. *)
Theorem report_stock_lists_all_sorted (db : DB) :
  exists rows,
    report_stock (fresh_session db) = (Val rows, fresh_session db)
    /\ rows ≡ₚ get_stock_query db
    /\ Sorted (fun a b =>
                 match category_compare (i_category a.1) (i_category b.1) with
                 | Lt => True
                 | Eq => String.leb (i_name a.1) (i_name b.1) = true
                 | Gt => False
                 end) rows.
Proof.
  unfold report_stock. rewrite query_no_pending by done. cbn [work fresh_session].
  eexists. split; [reflexivity|]. split; [apply sort_by_perm|].
  eapply Sorted_weaken; [|apply (sort_by_sorted report_leb report_leb_total)].
  intros a b. unfold report_leb.
  by destruct (category_compare _ _).
Qed.

(** ** Importing a file again *)

Lemma find_duplicate_known (db : DB) (row : gmap string Cell) :
  row_known db row ->
  exists e, find_duplicate (normalize_name (row_name row)) (row_category row)
              (row_unit row) db = Some e.
Proof.
  intros (e & Hin & Hg). unfold find_duplicate. by apply (find_is_Some _ _ e).
Qed.

Lemma row_known_mono (db db' : DB) (row : gmap string Cell) :
  items db `prefix_of` items db' -> row_known db row -> row_known db' row.
Proof.
  intros Hpre (e & Hin & Hg). exists e. split; [|done]. by eapply elem_of_prefix.
Qed.

Lemma import_step_grows (db : DB) (row : gmap string Cell) :
  items db `prefix_of` items (import_step db row).
Proof.
  unfold import_step. destruct (row_outcome db row); try done.
  cbn. by apply prefix_app_r.
Qed.

Lemma import_spec_grows (rows : list (gmap string Cell)) (db : DB) :
  items db `prefix_of` items (import_spec db rows).1.
Proof.
  revert db. induction rows as [|row rows IH]; intros db; [done|].
  cbn [import_spec fst]. etrans; [apply import_step_grows|apply IH].
Qed.

(** After its turn in the loop a row with a name in plain form is known
    to the guard. *)
Lemma import_step_known (db : DB) (row : gmap string Cell) :
  Py.truthy_str (row_name row) = true ->
  plain_name (row_name row) ->
  row_known (import_step db row) row.
Proof.
  intros Hname Hws. unfold import_step, row_outcome. rewrite Hname. cbn [negb].
  destruct (find_duplicate _ _ _ db) as [e|] eqn:E.
  - apply find_duplicate_Some in E as (Hin & Hl & Hc & Hu). exists e. split; [done|].
    unfold guard_match. by rewrite !bool_decide_eq_true_2.
  - exists (row_item db row). split; [cbn; apply elem_of_app; right; by left|].
    unfold guard_match, row_item. cbn [i_name i_category i_unit].
    rewrite lower_of_plain_name by done. by rewrite !bool_decide_eq_true_2.
Qed.

Lemma import_spec_known (rows : list (gmap string Cell)) (db : DB) :
  Forall (fun row => plain_name (row_name row)) rows ->
  Forall (row_known (import_spec db rows).1) (named_rows rows).
Proof.
  intros Hws. revert db. induction Hws as [|row rows Hrow _ IH]; intros db; [constructor|].
  cbn [import_spec fst named_rows List.filter].
  destruct (Py.truthy_str (row_name row)) eqn:Hname; [|apply IH].
  constructor; [|apply IH].
  eapply row_known_mono; [apply import_spec_grows|]. by apply import_step_known.
Qed.

Lemma import_admissible_converts (rows : list (gmap string Cell)) (db : DB) :
  import_admissible db rows = true ->
  Forall (fun row => converts (row_min_qty row) = true) (named_rows rows).
Proof.
  revert db. induction rows as [|row rows IH]; intros db; [constructor|].
  cbn [import_admissible named_rows List.filter].
  intros [Hrow Hrest]%andb_true_iff.
  destruct (Py.truthy_str (row_name row)) eqn:Hname; [|by eapply IH].
  constructor; [|by eapply IH].
  unfold row_admissible, row_outcome in Hrow. rewrite Hname in Hrow. cbn in Hrow.
  destruct (find_duplicate _ _ _ db); [done|]. by apply andb_true_iff in Hrow as [? _].
Qed.

(** On a catalogue that knows every named row, the loop creates nothing. *)
Lemma import_spec_all_known (rows : list (gmap string Cell)) (db : DB) :
  Forall (row_known db) (named_rows rows) ->
  Forall (fun row => converts (row_min_qty row) = true) (named_rows rows) ->
  import_admissible db rows = true
  /\ (import_spec db rows).1 = db
  /\ count_outcome Created (import_spec db rows).2 = 0
  /\ count_outcome SkippedDuplicate (import_spec db rows).2
     = Z.of_nat (length (named_rows rows)).
Proof.
  induction rows as [|row rows IH]; intros Hk Hc; [done|].
  cbn [named_rows List.filter] in Hk, Hc.
  cbn [import_admissible import_spec fst snd named_rows List.filter].
  rewrite (count_outcome_cons Created _ (import_spec (import_step db row) rows).2),
    (count_outcome_cons SkippedDuplicate _ (import_spec (import_step db row) rows).2).
  unfold row_admissible, import_step, row_outcome.
  destruct (Py.truthy_str (row_name row)) eqn:Hname; cbn [negb].
  - apply Forall_cons in Hk as [Hrow Hk]. apply Forall_cons in Hc as [Hconv Hc].
    destruct (find_duplicate_known db row Hrow) as (e & ->).
    destruct (IH Hk Hc) as (Ha & Hdb & Hcr & Hsk).
    rewrite Hconv, Ha, Hdb, Hcr, Hsk.
    split; [done|]. split; [done|].
    split; unfold count_outcome; rewrite filter_cons, filter_nil;
      case_decide; try done; unfold named_rows in *; cbn [length]; lia.
  - destruct (IH Hk Hc) as (Ha & Hdb & Hcr & Hsk).
    rewrite Ha, Hdb, Hcr, Hsk.
    split; [done|]. split; [done|].
    split; unfold count_outcome; rewrite filter_cons, filter_nil;
      case_decide; try done; unfold named_rows in *; cbn [length]; lia.
Qed.

(** Importing a file twice: when a file whose names are in plain form
    (no whitespace at the ends, single spaces between words, no capital
    letter outside A-Z) has been imported, importing the same file again
    creates no item and leaves the catalogue as the first import left it;
    every row with a name is counted as skipped. *)
Theorem import_items_again_creates_nothing (db : DB) (rows : list (gmap string Cell)) :
  import_admissible db rows = true ->
  Forall (fun row => plain_name (row_name row)) rows ->
  let db1 := committed (import_items POST (Some rows) (fresh_session db)).2 in
  import_items POST (Some rows) (fresh_session db1)
  = (Val (Redirect "items" None),
     mkSession db1 db1 [] [FlashImport 0 (Z.of_nat (length (named_rows rows)))]).
Proof.
  intros Hadm Hws db1.
  assert (Hdb1 : db1 = (import_spec db rows).1)
    by (unfold db1; by rewrite (import_items_run _ _ Hadm)).
  destruct (import_spec_all_known rows db1) as (Ha & Hdb & Hcr & Hsk).
  - rewrite Hdb1. by apply import_spec_known.
  - by eapply import_admissible_converts.
  - rewrite (import_items_run _ _ Ha). by rewrite Hdb, Hcr, Hsk.
Qed.

Lemma import_items_again_creates_nothing_witness :
  import_items POST (Some [beans_row; spaces_row; beans_row])
    (fresh_session
       (committed (import_items POST (Some [beans_row; spaces_row; beans_row])
                     (fresh_session db_rice)).2))
  = (Val (Redirect "items" None),
     mkSession
       (committed (import_items POST (Some [beans_row; spaces_row; beans_row])
                     (fresh_session db_rice)).2)
       (committed (import_items POST (Some [beans_row; spaces_row; beans_row])
                     (fresh_session db_rice)).2)
       [] [FlashImport 0 2]).
Proof.
  apply (import_items_again_creates_nothing db_rice [beans_row; spaces_row; beans_row]).
  - reflexivity.
  - repeat constructor.
Defined.

(** ** The soft key under creation and import *)

Lemma with_item_soft_unique (db : DB) (it : Item) :
  names_normal db -> soft_unique db ->
  find_duplicate (normalize_name (i_name it)) (i_category it) (i_unit it) db = None ->
  soft_unique (with_item db it).
Proof.
  intros Hn Hu Hnone. unfold soft_unique, with_item. cbn [items].
  rewrite fmap_app. apply NoDup_app. split; [done|]. split; [|apply NoDup_singleton].
  intros k (e & -> & Hin)%list_elem_of_fmap [= Hname Hcat Hunit]%list_elem_of_singleton.
  rewrite find_duplicate_None in Hnone. apply (Hnone e Hin).
  unfold names_normal in Hn. rewrite Forall_forall in Hn.
  by rewrite lower_of_plain_name by (by apply Hn).
Qed.

Lemma with_item_names_normal (db : DB) (it : Item) :
  names_normal db -> plain_name (i_name it) -> names_normal (with_item db it).
Proof.
  intros Hn Hit. unfold names_normal, with_item. cbn [items].
  apply Forall_app. split; [done|]. by constructor.
Qed.

(** The guard keeps the soft key a key on names in plain form: in a
    catalogue whose stored names are in plain form (single spaces between
    words, no capital letter outside A-Z) and in which no two items share
    normalised name, category and unit, a creation request leaves no two
    items sharing them; and when the submitted name is in plain form once
    stripped, the stored names stay in plain form. *)
Theorem item_new_keeps_soft_unique (db : DB) (form : gmap string string) raw m :
  item_form_reads form raw m ->
  names_normal db -> soft_unique db ->
  let db' := committed (item_new POST form (fresh_session db)).2 in
  soft_unique db' /\ (plain_name (Py.strip raw) -> names_normal db').
Proof.
  intros Hr Hn Hu. rewrite (item_new_post _ _ _ _ Hr).
  destruct (find_duplicate _ _ _ db) as [e|] eqn:E; [done|].
  destruct (sku_taken _ _); [done|]. cbn [snd committed]. split.
  - by apply with_item_soft_unique.
  - intros Hws. by apply with_item_names_normal.
Qed.

Lemma item_new_keeps_soft_unique_witness :
  soft_unique (committed (item_new POST (rice_form "Rice" "L") (fresh_session db_rice)).2).
Proof.
  apply (item_new_keeps_soft_unique db_rice (rice_form "Rice" "L") "Rice" 0).
  - split; reflexivity.
  - repeat constructor.
  - unfold soft_unique. cbn. apply NoDup_singleton.
Defined.

Lemma import_step_soft_unique (db : DB) (row : gmap string Cell) :
  plain_name (row_name row) ->
  names_normal db -> soft_unique db ->
  names_normal (import_step db row) /\ soft_unique (import_step db row).
Proof.
  intros Hws Hn Hu. unfold import_step, row_outcome.
  destruct (negb _); [done|].
  destruct (find_duplicate _ _ _ db) eqn:E; [done|]. split.
  - by apply with_item_names_normal.
  - by apply with_item_soft_unique.
Qed.

Lemma import_spec_soft_unique (rows : list (gmap string Cell)) (db : DB) :
  Forall (fun row => plain_name (row_name row)) rows ->
  names_normal db -> soft_unique db ->
  names_normal (import_spec db rows).1 /\ soft_unique (import_spec db rows).1.
Proof.
  intros Hws. revert db. induction Hws as [|row rows Hrow _ IH]; intros db Hn Hu; [done|].
  cbn [import_spec fst].
  destruct (import_step_soft_unique db row Hrow Hn Hu) as [Hn' Hu']. by apply IH.
Qed.

(** Bulk import keeps the soft key a key on names in plain form: when
    the stored names and the names of the file are in plain form (single
    spaces between words, no capital letter outside A-Z) and no two items
    of the catalogue share normalised name, category and unit, the
    catalogue an import commits has no two items sharing them, rows
    repeated inside the file included. *)
Theorem import_items_keeps_soft_unique (db : DB) (rows : list (gmap string Cell)) :
  import_admissible db rows = true ->
  Forall (fun row => plain_name (row_name row)) rows ->
  names_normal db -> soft_unique db ->
  let db' := committed (import_items POST (Some rows) (fresh_session db)).2 in
  names_normal db' /\ soft_unique db'.
Proof.
  intros Hadm Hws Hn Hu. rewrite (import_items_run _ _ Hadm). cbn [snd committed].
  by apply import_spec_soft_unique.
Qed.

Lemma import_items_keeps_soft_unique_witness :
  soft_unique (committed (import_items POST (Some [beans_row; spaces_row; beans_row])
                            (fresh_session db_rice)).2).
Proof.
  apply (import_items_keeps_soft_unique db_rice [beans_row; spaces_row; beans_row]).
  - reflexivity.
  - repeat constructor.
  - repeat constructor.
  - unfold soft_unique. cbn. apply NoDup_singleton.
Defined.

(** ** Balances under [distribute] *)

(** What a request to [distribute] can do to the committed tables: leave
    the catalogue and the ledger as they were, or record the entry of a
    form that reads well after a stock check that passed. *)
Lemma distribute_cases (db : DB) (method : Method) (form : gmap string string) :
  let out := distribute method form (fresh_session db) in
  (items (committed out.2) = items db
   /\ transactions (committed out.2) = transactions db)
  \/ (exists i q loc stock,
        method = POST
        /\ form_reads form i q loc
        /\ stock_map_get (stock_map (get_stock_query db)) i = Some stock
        /\ q <= stock).
Proof.
  destruct method; [by left|].
  destruct (result_bind (form_item form "item_id") py_int) as [i|e1] eqn:Hi.
  2:{ left. unfold distribute. unfold bind at 1.
      cbn [query bind flush fresh_session pending work insert_all committed flashes].
      read_form Hi. done. }
  destruct (result_bind (form_item form "qty") py_int) as [q|e2] eqn:Hq.
  2:{ left. unfold distribute. unfold bind at 1.
      cbn [query bind flush fresh_session pending work insert_all committed flashes].
      read_form Hi. read_form Hq. done. }
  destruct (form_location_id form) as [loc|e3] eqn:Hl.
  2:{ left. unfold distribute. unfold bind at 1.
      cbn [query bind flush fresh_session pending work insert_all committed flashes].
      read_form Hi. read_form Hq. read_form Hl. done. }
  assert (Hr : form_reads form i q loc) by done.
  cbv zeta. rewrite (distribute_post _ _ _ _ _ Hr).
  destruct (after_beneficiary_inv db (form_beneficiary_name form) (form_parish form))
    as (Hc & Hp & Hf & Hit & Htx & _).
  destruct (stock_map_get _ i) as [stock|] eqn:Hs.
  - case_bool_decide as Hlt.
    + left. unfold bind, flash, ret. cbn [fst snd committed]. by rewrite Hc.
    + right. exists i, q, loc, stock. repeat split; try done. lia.
  - left. cbn [snd]. by rewrite Hc.
Qed.

(** A request to [distribute] that runs alone (no other request commits
    between its stock check and its commit) does not drive a balance below
    zero: when the stock query runs within the 64-bit range of the store,
    the integers the form carries are within it, and no item of the
    catalogue has a negative balance, none has one after the request,
    whatever the method and the rest of the form.  Two requests that
    interleave are outside this statement: each may pass the check on the
    stock the other is about to take. *)
Theorem distribute_keeps_balances_nonnegative (db : DB) (method : Method)
    (form : gmap string string) :
  stock_fits db ->
  (forall i q loc, form_reads form i q loc -> form_fits i q loc) ->
  balances_nonnegative db ->
  balances_nonnegative (committed (distribute method form (fresh_session db)).2).
Proof.
  intros _ _ Hb. unfold balances_nonnegative in *.
  destruct (distribute_cases db method form)
    as [[Hit Htx]|(i & q & loc & stock & -> & Hr & Hs & Hle)].
  - by rewrite Hit, Htx.
  - rewrite (distribute_records_run _ _ _ _ _ _ Hr Hs Hle). cbn [snd committed].
    destruct (after_beneficiary_inv db (form_beneficiary_name form) (form_parish form))
      as (_ & _ & _ & Hit & Htx & _).
    cbn [with_transaction items transactions]. rewrite Hit, Htx.
    rewrite Forall_forall in Hb. apply Forall_forall. intros it Hin.
    rewrite stock_of_id_snoc. cbn [distribute_entry t_item_id].
    case_bool_decide as Hid; [|by apply Hb].
    rewrite stock_map_get_query, decide_True in Hs
      by (rewrite <- Hid; by apply list_elem_of_fmap_2).
    rewrite Hid, Hs. unfold signed_qty. cbn [t_ttype t_qty].
    rewrite bool_decide_eq_false_2 by done. cbn. lia.
Qed.

Lemma distribute_keeps_balances_nonnegative_witness :
  balances_nonnegative (committed (distribute POST ask_five (fresh_session db_stocked)).2).
Proof.
  apply distribute_keeps_balances_nonnegative.
  - reflexivity.
  - intros i q loc (Hi & Hq & Hl). vm_compute in Hi, Hq, Hl.
    injection Hi as <-. injection Hq as <-. injection Hl as <-.
    unfold form_fits, int64. cbn. lia.
  - repeat constructor. vm_compute. discriminate.
Defined.

(** * The check on the name of an upload *)

Lemma rsplit1_chars_absent (sep : ascii) (l : list ascii) :
  sep ∉ l -> rsplit1_chars sep l = [l].
Proof.
  induction l as [|c l IH]; [done|]. intros Hnin. cbn [rsplit1_chars].
  rewrite IH by (intros ?; apply Hnin; by right).
  destruct (Ascii.eqb_spec c sep) as [->|]; [|done]. exfalso. apply Hnin. by left.
Qed.

Lemma rsplit1_chars_last (sep : ascii) (stem ext : list ascii) :
  sep ∉ ext -> rsplit1_chars sep (stem ++ sep :: ext) = [stem; ext].
Proof.
  intros Hnin. induction stem as [|c stem IH].
  - cbn [app rsplit1_chars]. rewrite rsplit1_chars_absent by done.
    by rewrite Ascii.eqb_refl.
  - cbn [app rsplit1_chars]. by rewrite IH.
Qed.

Lemma last_occurrence (sep : ascii) (l : list ascii) :
  sep ∈ l -> exists stem ext, l = (stem ++ sep :: ext)%list /\ sep ∉ ext.
Proof.
  induction l as [|c l IH]; [by intros ?%elem_of_nil|]. intros Hin.
  destruct (decide (sep ∈ l)) as [Hl|Hl].
  - destruct (IH Hl) as (stem & ext & -> & Hnin). by exists (c :: stem), ext.
  - apply elem_of_cons in Hin as [->|]; [|done]. by exists [], l.
Qed.

Lemma contains_char_elem (sep : ascii) (s : string) :
  contains_char sep s = true <-> sep ∈ list_ascii_of_string s.
Proof.
  unfold contains_char. rewrite existsb_exists. split.
  - intros (c & Hin & ->%Ascii.eqb_eq). by apply list_elem_of_In.
  - intros Hin. exists sep. split; [by apply list_elem_of_In|apply Ascii.eqb_refl].
Qed.

(** When the name has a dot, the text after its last dot is what is
    looked up. *)
Lemma allowed_file_last (stem ext : list ascii) :
  "."%char ∉ ext ->
  allowed_file (string_of_list_ascii (stem ++ "."%char :: ext))
  = Some (bool_decide (Py.lower (string_of_list_ascii ext) ∈ ALLOWED_EXTENSIONS)).
Proof.
  intros Hnin. unfold allowed_file.
  replace (contains_char "." _) with true.
  2:{ symmetry. apply contains_char_elem. rewrite list_ascii_of_string_of_list_ascii.
      apply elem_of_app. right. by left. }
  unfold rsplit1. rewrite list_ascii_of_string_of_list_ascii.
  by rewrite rsplit1_chars_last.
Qed.

Lemma lower_char_dot (c : ascii) : Py.lower_char c = "."%char -> c = "."%char.
Proof. destruct c as [[] [] [] [] [] [] [] []]; vm_compute; congruence. Qed.

Lemma allowed_extension_no_dot (ext : string) :
  Py.lower ext ∈ ALLOWED_EXTENSIONS -> "."%char ∉ list_ascii_of_string ext.
Proof.
  intros Hin Hdot.
  assert (Hlow : "."%char ∈ list_ascii_of_string (Py.lower ext)).
  { unfold Py.lower. rewrite list_ascii_of_string_of_list_ascii.
    apply list_elem_of_fmap. by exists "."%char. }
  assert (Hall : Forall (fun a => "."%char ∉ list_ascii_of_string a) ALLOWED_EXTENSIONS).
  { repeat constructor; cbn; intros H;
      repeat (apply elem_of_cons in H as [H|H]; [done|]); by apply elem_of_nil in H. }
  rewrite Forall_forall in Hall. by apply (Hall _ Hin).
Qed.

(** [allowed_file] always answers, and it accepts exactly the names that
    end in a dot followed by an allowed extension in any letter case; what
    stands before that last dot, other dots included, plays no part. *)
Theorem allowed_file_accepts_iff (filename : string) :
  (exists b, allowed_file filename = Some b)
  /\ (allowed_file filename = Some true
      <-> exists stem ext, filename = (stem ++ "." ++ ext)%string
                           /\ Py.lower ext ∈ ALLOWED_EXTENSIONS).
Proof.
  destruct (contains_char "." filename) eqn:Hdot.
  - apply contains_char_elem, last_occurrence in Hdot as (stem & ext & Heq & Hnin).
    assert (Hname : filename = string_of_list_ascii (stem ++ "."%char :: ext))
      by (by rewrite <- Heq, string_of_list_ascii_of_string).
    assert (Hrun : allowed_file filename
                   = Some (bool_decide (Py.lower (string_of_list_ascii ext)
                                        ∈ ALLOWED_EXTENSIONS)))
      by (rewrite Hname; by apply allowed_file_last).
    rewrite Hrun. split; [by eexists|].
    split.
    + intros [= Hb]. apply bool_decide_eq_true in Hb.
      exists (string_of_list_ascii stem), (string_of_list_ascii ext). split; [|done].
      rewrite Hname. by rewrite string_of_list_ascii_app.
    + intros (stem' & ext' & Heq' & Hin). f_equal. apply bool_decide_eq_true.
      pose proof (allowed_extension_no_dot _ Hin) as Hnin'.
      assert (Hsame : (list_ascii_of_string stem' ++ "."%char :: list_ascii_of_string ext')%list
                      = (stem ++ "."%char :: ext)%list).
      { rewrite <- Heq, Heq'. by rewrite !list_ascii_of_string_app. }
      assert (Hext : list_ascii_of_string ext' = ext).
      { clear -Hsame Hnin Hnin'. revert Hsame.
        generalize (list_ascii_of_string stem') as a.
        generalize dependent (list_ascii_of_string ext'). intros e He a. revert stem.
        induction a as [|c a IH]; intros [|d stem]; cbn.
        - by intros [= ->].
        - intros [= <- ->]. exfalso. apply He, elem_of_app. right. by left.
        - intros [= -> <-]. exfalso. apply Hnin, elem_of_app. right. by left.
        - intros [= -> H]. by apply (IH stem). }
      by rewrite <- Hext, string_of_list_ascii_of_string.
  - unfold allowed_file. rewrite Hdot. split; [by eexists|]. split; [done|].
    intros (stem & ext & -> & _). exfalso.
    assert (contains_char "." (stem ++ "." ++ ext) = true); [|congruence].
    apply contains_char_elem. rewrite !list_ascii_of_string_app.
    apply elem_of_app. right. by left.
Qed.

Lemma lower_char_is_dot (c : ascii) :
  Ascii.eqb (Py.lower_char c) "." = Ascii.eqb c ".".
Proof. destruct c as [[] [] [] [] [] [] [] []]; reflexivity. Qed.

Lemma rsplit1_chars_lower (l : list ascii) :
  rsplit1_chars "." (map Py.lower_char l)
  = map (map Py.lower_char) (rsplit1_chars "." l).
Proof.
  induction l as [|c l IH]; [done|]. cbn [map rsplit1_chars]. rewrite IH.
  destruct (rsplit1_chars "." l) as [|w [|w' ws]]; cbn [map]; [done| |done].
  rewrite lower_char_is_dot. by destruct (Ascii.eqb c ".").
Qed.

(** The check does not depend on the case of the letters of the name. *)
Theorem allowed_file_ignores_case (filename : string) :
  allowed_file (Py.lower filename) = allowed_file filename.
Proof.
  unfold allowed_file, contains_char, rsplit1, Py.lower.
  rewrite !list_ascii_of_string_of_list_ascii.
  replace (existsb (Ascii.eqb ".") (map Py.lower_char (list_ascii_of_string filename)))
    with (existsb (Ascii.eqb ".") (list_ascii_of_string filename)).
  2:{ induction (list_ascii_of_string filename) as [|c l IH]; [done|].
      cbn [map existsb]. rewrite IH. f_equal.
      by rewrite !(Ascii.eqb_sym "."), lower_char_is_dot. }
  destruct (existsb _ _); [|done].
  rewrite rsplit1_chars_lower, !list_lookup_fmap.
  destruct (rsplit1_chars "." _ !! 1%nat) as [ext|]; [|done]. cbn.
  by rewrite !list_ascii_of_string_of_list_ascii, map_lower_idem.
Qed.
